(** * Verification of the AWS JSON 1.0 protocol codec of the
      Amazon Q Developer streaming client

    Shallow embedding of
    [src.gen/@amzn/amazon-q-developer-streaming-client/src/protocols/Aws_json1_0.ts].

    JavaScript values are embedded in one universal type [JVal]; a property
    read [o[k]] is [prop k o : option JVal] where [None] is [undefined].
    Header bags and event objects, which the code only reads by key, are
    [gmap string _].  An [async] function that may reject is a function into
    [Result]. *)

From Stdlib Require Import ZArith String Ascii List Lia Bool.
From stdpp Require Import base option gmap strings list pretty.

Import ListNotations.
Set Warnings "-register-all".
Local Open Scope string_scope.
Local Open Scope Z_scope.

(** ** JavaScript strings *)

Module JsString.

(** [s.endsWith(t)] *)
Definition endsWith (s t : string) : bool :=
  (String.length t <=? String.length s)%nat
  && String.eqb (substring (String.length s - String.length t) (String.length t) s) t.

(** [s.slice(start, finish)], negative indices counting from the end. *)
Definition slice (s : string) (start finish : Z) : string :=
  let len := Z.of_nat (String.length s) in
  let from := if start <? 0 then Z.max (len + start) 0 else Z.min start len in
  let to := if finish <? 0 then Z.max (len + finish) 0 else Z.min finish len in
  substring (Z.to_nat from) (Z.to_nat (to - from)) s.

End JsString.

(** ** HTTP messages and response metadata *)

(** [HeaderBag]: header name to header value. *)
Abbreviation HeaderBag := (gmap string string).

(** What [deserializeMetadata] and the deserializers read of an
    [__HttpResponse] or of an event-stream message: an optional numeric
    [statusCode] (event messages have none), the [headers] and the [body]. *)
Record Output (B : Type) : Type := mkOutput {
  statusCode : option Z;
  headers : HeaderBag;
  body : B
}.
Arguments mkOutput {B} _ _ _.
Arguments statusCode {B} _.
Arguments headers {B} _.
Arguments body {B} _.

(** [__ResponseMetadata] *)
Record ResponseMetadata : Type := mkMetadata {
  httpStatusCode : option Z;
  requestId : option string;
  extendedRequestId : option string;
  cfId : option string
}.

(** The nullish coalescing operator [a ?? b]. *)
Definition nullish {A : Type} (a b : option A) : option A :=
  match a with
  | Some x => Some x
  | None => b
  end.
Infix "??" := nullish (at level 61, left associativity).

Definition deserializeMetadata {B : Type} (output : Output B) : ResponseMetadata :=
  {| httpStatusCode := statusCode output;
     requestId := headers output !! "x-amzn-requestid"
                  ?? headers output !! "x-amzn-request-id"
                  ?? headers output !! "x-amz-request-id";
     extendedRequestId := headers output !! "x-amz-id-2";
     cfId := headers output !! "x-amz-cf-id" |}.

(** ** The request envelope *)

(** [__Endpoint], the value of [await context.endpoint()]. *)
Record Endpoint : Type := mkEndpoint {
  ep_hostname : string;
  ep_protocol : option string;
  ep_port : option Z;
  ep_path : string
}.

(** The fields handed to [new __HttpRequest(contents)]. *)
Record HttpRequest : Type := mkHttpRequest {
  req_protocol : string;
  req_hostname : string;
  req_port : option Z;
  req_method : string;
  req_path : string;
  req_headers : HeaderBag;
  req_body : option string
}.

Definition buildHttpRpcRequest (endpoint : Endpoint) (hdrs : HeaderBag)
    (path : string) (resolvedHostname : option string) (body : option string)
    : HttpRequest :=
  let hostname := ep_hostname endpoint in
  let protocol := default "https" (ep_protocol endpoint) in
  let port := ep_port endpoint in
  let basePath := ep_path endpoint in
  let contents :=
    {| req_protocol := protocol;
       req_hostname := hostname;
       req_port := port;
       req_method := "POST";
       req_path := if JsString.endsWith basePath "/"
                   then JsString.slice basePath 0 (-1) ++ path
                   else basePath ++ path;
       req_headers := hdrs;
       req_body := None |} in
  let contents :=
    match resolvedHostname with
    | Some h =>
        {| req_protocol := req_protocol contents; req_hostname := h;
           req_port := req_port contents; req_method := req_method contents;
           req_path := req_path contents; req_headers := req_headers contents;
           req_body := req_body contents |}
    | None => contents
    end in
  match body with
  | Some b =>
      {| req_protocol := req_protocol contents; req_hostname := req_hostname contents;
         req_port := req_port contents; req_method := req_method contents;
         req_path := req_path contents; req_headers := req_headers contents;
         req_body := Some b |}
  | None => contents
  end.

Definition sharedHeaders (operation : string) : HeaderBag :=
  {[ "content-type" := "application/x-amz-json-1.0";
     "x-amz-target" := "AmazonQDeveloperStreamingService." ++ operation ]}.

(** ** JavaScript values *)

(** Values that reach the serializers: JSON data and [Uint8Array] blobs.
    Numbers are only copied by this code and are kept as integers. *)
Inductive JVal : Type :=
| JNull
| JBool (b : bool)
| JNum (n : Z)
| JStr (s : string)
| JBytes (bs : list Byte.byte)
| JArr (xs : list JVal)
| JObj (fields : list (string * JVal)).

(** An object is its list of own properties, keys unique, in insertion
    order. *)
Abbreviation Fields := (list (string * JVal)).

Fixpoint assoc (k : string) (fs : Fields) : option JVal :=
  match fs with
  | [] => None
  | (k', v) :: rest => if String.eqb k' k then Some v else assoc k rest
  end.

(** [target[k] = v] *)
Fixpoint obj_set (k : string) (v : JVal) (fs : Fields) : Fields :=
  match fs with
  | [] => [(k, v)]
  | (k', v') :: rest =>
      if String.eqb k' k then (k', v) :: rest else (k', v') :: obj_set k v rest
  end.

(** [o[k]] for a named member [k]; [None] is [undefined]. *)
Definition prop (k : string) (o : JVal) : option JVal :=
  match o with
  | JObj fs => assoc k fs
  | _ => None
  end.

(** [x != null]: neither [null] nor [undefined]. *)
Definition nonNull (v : JVal) : bool :=
  match v with
  | JNull => false
  | _ => true
  end.

Definition nonNullish (x : option JVal) : bool :=
  match x with
  | Some v => nonNull v
  | None => false
  end.

(** Index-keyed properties ["0"], ["1"], ... of an array-like value. *)
Fixpoint indexed_from (i : N) (xs : list JVal) : Fields :=
  match xs with
  | [] => []
  | x :: rest => (pretty i, x) :: indexed_from (N.succ i) rest
  end.

Definition byte_val (b : Byte.byte) : JVal := JNum (Z.of_N (Byte.to_N b)).
Definition char_val (c : ascii) : JVal := JStr (String c "").

(** The own enumerable properties copied by a spread [{...v}]. *)
Definition own_entries (v : JVal) : Fields :=
  match v with
  | JObj fs => fs
  | JArr xs => indexed_from 0 xs
  | JStr s => indexed_from 0 (map char_val (list_ascii_of_string s))
  | JBytes bs => indexed_from 0 (map byte_val bs)
  | _ => []
  end.

(** [{ ...target, ...v }] *)
Definition obj_spread (target : Fields) (v : JVal) : Fields :=
  fold_left (fun acc kv => obj_set (fst kv) (snd kv) acc) (own_entries v) target.

(** ** Outcomes of calls *)

(** What the modelled code can throw (or reject with).  The exception
    classes live in [models_0.ts]; a thrown service exception is kept as the
    constructor that was called and the options object it was given, followed
    by the [additions] handed to [__decorateServiceException]. *)
Inductive ExceptionCtor : Type :=
| AccessDeniedException
| ConflictException
| DryRunOperationException
| InternalServerException
| ResourceNotFoundException
| ServiceQuotaExceededException
| ThrottlingException
| ValidationException.

Record ServiceException : Type := mkException {
  ex_ctor : ExceptionCtor;
  ex_opts : Fields;
  ex_additions : JVal
}.

Abbreviation Body := (list Byte.byte).

Inductive Thrown : Type :=
| TypeError (msg : string)
| ParseError (raw : Body)
| Service (e : ServiceException)
| DefaultError (output : Output Body) (parsedBody : JVal) (errorCode : option string).

Inductive Result (A : Type) : Type :=
| Return (a : A)
| Throw (e : Thrown).
Arguments Return {A} _.
Arguments Throw {A} _.

Definition bind {A B : Type} (r : Result A) (k : A -> Result B) : Result B :=
  match r with
  | Return a => k a
  | Throw e => Throw e
  end.

Notation "'let*' x ':=' r 'in' k" := (bind r (fun x => k))
  (at level 10, x name, r at level 100, k at level 200).

Fixpoint mapR {A B : Type} (f : A -> Result B) (xs : list A) : Result (list B) :=
  match xs with
  | [] => Return []
  | x :: rest =>
      let* y := f x in
      let* ys := mapR f rest in
      Return (y :: ys)
  end.

(** ** Helpers of [@smithy/smithy-client] and of [models_0.ts] *)

(** Modelled from the spec: [_json] of [@smithy/smithy-client] is not part of
    the sources.  It is the pass-through copy of a JSON document that drops
    nullish members and array entries (section 4.1: fields whose value is
    absent are never emitted). *)
Fixpoint _json (obj : JVal) : JVal :=
  match obj with
  | JNull => JObj []
  | JArr xs =>
      JArr ((fix each (l : list JVal) : list JVal :=
               match l with
               | [] => []
               | x :: rest => if nonNull x then _json x :: each rest else each rest
               end) xs)
  | JObj fs =>
      JObj ((fix each (l : Fields) : Fields :=
               match l with
               | [] => []
               | (k, x) :: rest =>
                   if nonNull x then (k, _json x) :: each rest else each rest
               end) fs)
  | JBytes bs => JObj (indexed_from 0 (map byte_val bs))
  | _ => obj
  end.

(** A rule of a field table: [[]] copies the member, a function is applied
    to it. *)
Inductive Instruction : Type :=
| Pass
| ValueFn (f : JVal -> Result JVal).

Definition valueFn (i : Instruction) (v : JVal) : Result JVal :=
  match i with
  | Pass => Return v
  | ValueFn f => f v
  end.

Abbreviation Instructions := (list (string * Instruction)).

(** Modelled from the spec: [take] of [@smithy/smithy-client] is not part of
    the sources.  Section 4.1: for each field name of the table, in order,
    a member of the source that is absent is not emitted, otherwise the
    field's rule is applied to it and the result is stored under the same
    name; members outside the table are never read.  An explicit [null]
    counts as absent, as the decoders' [!= null] tests do. *)
Definition applyInstruction (target : Fields) (source : JVal)
    (targetKey : string) (instruction : Instruction) : Result Fields :=
  match prop targetKey source with
  | Some x =>
      if nonNull x
      then let* y := valueFn instruction x in Return (obj_set targetKey y target)
      else Return target
  | None => Return target
  end.

Fixpoint take_into (target : Fields) (source : JVal) (instructions : Instructions)
    : Result Fields :=
  match instructions with
  | [] => Return target
  | (key, instruction) :: rest =>
      let* target' := applyInstruction target source key instruction in
      take_into target' source rest
  end.

Definition take (source : JVal) (instructions : Instructions) : Result JVal :=
  let* out := take_into [] source instructions in
  Return (JObj out).

Fixpoint assoc_visitor (k : string) (visitor : list (string * (JVal -> Result JVal)))
    : option (JVal -> Result JVal) :=
  match visitor with
  | [] => None
  | (k', f) :: rest => if String.eqb k' k then Some f else assoc_visitor k rest
  end.

(** The members of a variant value that are populated ([!== undefined]),
    among the given names. *)
Definition populated (value : JVal) (names : list string) : list string :=
  List.filter (fun k => match prop k value with Some _ => true | None => false end)
              names.

(** Modelled from the spec: the [visit] functions of the union namespaces
    ([ChatMessage.visit], [ImageSource.visit], [Tool.visit],
    [ToolResultContentBlock.visit]) are in [models_0.ts], which is not part
    of the sources.  Section 4.2: a variant value has exactly one populated
    alternative, a known one or the reserved [$unknown] one that carries the
    tag name and the payload; the visitor function of that alternative is
    called ([_] for [$unknown]); zero or several populated alternatives fail
    fast. *)
Definition visit (value : JVal)
    (visitor : list (string * (JVal -> Result JVal)))
    (fallback : string -> JVal -> Result JVal) : Result JVal :=
  match populated value (map fst visitor ++ ["$unknown"]) with
  | [k] =>
      match assoc_visitor k visitor, prop k value with
      | Some f, Some v => f v
      | None, Some (JArr [JStr name; v]) => fallback name v
      | _, _ => Throw (TypeError "malformed $unknown member")
      end
  | _ => Throw (TypeError "a union value must have exactly one member")
  end.

(** ** Serializers *)

(** [__SerdeContext], as far as the protocol functions use it. *)
Record SerdeContext : Type := mkContext {
  endpoint : Endpoint;
  base64Encoder : JVal -> string
}.

(** [input.filter((e: any) => e != null).map(entry => f(entry))] *)
Definition filter_map_entries (f : JVal -> Result JVal) (input : JVal) : Result JVal :=
  match input with
  | JArr xs =>
      let* ys := mapR f (List.filter nonNull xs) in
      Return (JArr ys)
  | _ => Throw (TypeError "input.filter is not a function")
  end.

Definition pure_fn (f : JVal -> JVal) : Instruction :=
  ValueFn (fun v => Return (f v)).

Section Serializers.

Variable context : SerdeContext.

Definition se_SensitiveDocument (input : JVal) : JVal := input.

Definition se_ToolUse (input : JVal) : Result JVal :=
  take input
    [ ("input", pure_fn se_SensitiveDocument);
      ("name", Pass);
      ("toolUseId", Pass) ].

Definition se_ToolUses (input : JVal) : Result JVal :=
  filter_map_entries se_ToolUse input.

Definition se_AssistantResponseMessage (input : JVal) : Result JVal :=
  take input
    [ ("content", Pass);
      ("followupPrompt", pure_fn _json);
      ("messageId", Pass);
      ("references", pure_fn _json);
      ("supplementaryWebLinks", pure_fn _json);
      ("toolUses", ValueFn se_ToolUses) ].

Definition se_ImageSource (input : JVal) : Result JVal :=
  visit input
    [ ("bytes", fun value =>
         Return (JObj [("bytes", JStr (base64Encoder context value))])) ]
    (fun name value => Return (JObj [("name", value)])).

Definition se_ImageBlock (input : JVal) : Result JVal :=
  take input
    [ ("format", Pass);
      ("source", ValueFn se_ImageSource) ].

Definition se_ImageBlocks (input : JVal) : Result JVal :=
  filter_map_entries se_ImageBlock input.

Definition se_ToolInputSchema (input : JVal) : Result JVal :=
  take input
    [ ("json", pure_fn se_SensitiveDocument) ].

Definition se_ToolSpecification (input : JVal) : Result JVal :=
  take input
    [ ("description", Pass);
      ("inputSchema", ValueFn se_ToolInputSchema);
      ("name", Pass) ].

Definition se_Tool (input : JVal) : Result JVal :=
  visit input
    [ ("toolSpecification", fun value =>
         let* r := se_ToolSpecification value in
         Return (JObj [("toolSpecification", r)])) ]
    (fun name value => Return (JObj [("name", value)])).

Definition se_Tools (input : JVal) : Result JVal :=
  filter_map_entries se_Tool input.

Definition se_ToolResultContentBlock (input : JVal) : Result JVal :=
  visit input
    [ ("json", fun value => Return (JObj [("json", se_SensitiveDocument value)]));
      ("text", fun value => Return (JObj [("text", value)])) ]
    (fun name value => Return (JObj [("name", value)])).

Definition se_ToolResultContent (input : JVal) : Result JVal :=
  filter_map_entries se_ToolResultContentBlock input.

Definition se_ToolResult (input : JVal) : Result JVal :=
  take input
    [ ("content", ValueFn se_ToolResultContent);
      ("status", Pass);
      ("toolUseId", Pass) ].

Definition se_ToolResults (input : JVal) : Result JVal :=
  filter_map_entries se_ToolResult input.

Definition se_UserInputMessageContext (input : JVal) : Result JVal :=
  take input
    [ ("additionalContext", pure_fn _json);
      ("appStudioContext", pure_fn _json);
      ("consoleState", pure_fn _json);
      ("diagnostic", pure_fn _json);
      ("editorState", pure_fn _json);
      ("envState", pure_fn _json);
      ("gitState", pure_fn _json);
      ("shellState", pure_fn _json);
      ("toolResults", ValueFn se_ToolResults);
      ("tools", ValueFn se_Tools);
      ("userSettings", pure_fn _json) ].

Definition se_UserInputMessage (input : JVal) : Result JVal :=
  take input
    [ ("content", Pass);
      ("images", ValueFn se_ImageBlocks);
      ("origin", Pass);
      ("userInputMessageContext", ValueFn se_UserInputMessageContext);
      ("userIntent", Pass) ].

Definition se_ChatMessage (input : JVal) : Result JVal :=
  visit input
    [ ("assistantResponseMessage", fun value =>
         let* r := se_AssistantResponseMessage value in
         Return (JObj [("assistantResponseMessage", r)]));
      ("userInputMessage", fun value =>
         let* r := se_UserInputMessage value in
         Return (JObj [("userInputMessage", r)])) ]
    (fun name value => Return (JObj [("name", value)])).

Definition se_ChatHistory (input : JVal) : Result JVal :=
  filter_map_entries se_ChatMessage input.

Definition se_ConversationState (input : JVal) : Result JVal :=
  take input
    [ ("chatTriggerType", Pass);
      ("conversationId", Pass);
      ("currentMessage", ValueFn se_ChatMessage);
      ("customizationArn", Pass);
      ("history", ValueFn se_ChatHistory) ].

Definition se_SendMessageRequest (input : JVal) : Result JVal :=
  take input
    [ ("conversationState", ValueFn se_ConversationState);
      ("dryRun", Pass);
      ("profileArn", Pass);
      ("source", Pass) ].

(** [JSON.stringify] is the host's. *)
Variable JSON_stringify : JVal -> string.

Definition se_GenerateCodeFromCommandsCommand (input : JVal) : Result HttpRequest :=
  let hdrs := sharedHeaders "GenerateCodeFromCommands" in
  let body := JSON_stringify (_json input) in
  Return (buildHttpRpcRequest (endpoint context) hdrs "/" None (Some body)).

Definition se_SendMessageCommand (input : JVal) : Result HttpRequest :=
  let hdrs := sharedHeaders "SendMessage" in
  let* wire := se_SendMessageRequest input in
  let body := JSON_stringify wire in
  Return (buildHttpRpcRequest (endpoint context) hdrs "/" None (Some body)).

End Serializers.

(** ** Deserializers *)

(** An event-stream message: headers and payload bytes (no status code). *)
Abbreviation Message := (Output Body).

(** The object handed to the per-event callback, [{ [eventType]: message }]. *)
Abbreviation EventObject := (gmap string (Output Body)).

(** The result of [deserializeMetadata] as the value of a [$metadata]
    member; members that are [undefined] are left out. *)
Definition opt_field (k : string) (v : option JVal) : Fields :=
  match v with
  | Some x => [(k, x)]
  | None => []
  end.

Definition metadata_val (m : ResponseMetadata) : JVal :=
  JObj (opt_field "httpStatusCode" (JNum <$> httpStatusCode m)
        ++ opt_field "requestId" (JStr <$> requestId m)
        ++ opt_field "extendedRequestId" (JStr <$> extendedRequestId m)
        ++ opt_field "cfId" (JStr <$> cfId m)).

(** [__decorateServiceException(new Ctor(opts), additions)] *)
Definition __decorateServiceException (ctor : ExceptionCtor) (opts : Fields)
    (additions : JVal) : ServiceException :=
  {| ex_ctor := ctor; ex_opts := opts; ex_additions := additions |}.

(** [{ ...output, body: b }] *)
Definition with_body {A B : Type} (output : Output A) (b : B) : Output B :=
  mkOutput (statusCode output) (headers output) b.

Definition de_AccessDeniedExceptionRes (parsedOutput : Output JVal) : ServiceException :=
  let body := body parsedOutput in
  let deserialized := _json body in
  __decorateServiceException AccessDeniedException
    (obj_spread [("$metadata", metadata_val (deserializeMetadata parsedOutput))]
                deserialized)
    body.

Definition de_ConflictExceptionRes (parsedOutput : Output JVal) : ServiceException :=
  let body := body parsedOutput in
  let deserialized := _json body in
  __decorateServiceException ConflictException
    (obj_spread [("$metadata", metadata_val (deserializeMetadata parsedOutput))]
                deserialized)
    body.

Definition de_DryRunOperationExceptionRes (parsedOutput : Output JVal) : ServiceException :=
  let body := body parsedOutput in
  let deserialized := _json body in
  __decorateServiceException DryRunOperationException
    (obj_spread [("$metadata", metadata_val (deserializeMetadata parsedOutput))]
                deserialized)
    body.

Definition de_InternalServerExceptionRes (parsedOutput : Output JVal) : ServiceException :=
  let body := body parsedOutput in
  let deserialized := _json body in
  __decorateServiceException InternalServerException
    (obj_spread [("$metadata", metadata_val (deserializeMetadata parsedOutput))]
                deserialized)
    body.

Definition de_ResourceNotFoundExceptionRes (parsedOutput : Output JVal) : ServiceException :=
  let body := body parsedOutput in
  let deserialized := _json body in
  __decorateServiceException ResourceNotFoundException
    (obj_spread [("$metadata", metadata_val (deserializeMetadata parsedOutput))]
                deserialized)
    body.

Definition de_ServiceQuotaExceededExceptionRes (parsedOutput : Output JVal)
    : ServiceException :=
  let body := body parsedOutput in
  let deserialized := _json body in
  __decorateServiceException ServiceQuotaExceededException
    (obj_spread [("$metadata", metadata_val (deserializeMetadata parsedOutput))]
                deserialized)
    body.

Definition de_ThrottlingExceptionRes (parsedOutput : Output JVal) : ServiceException :=
  let body := body parsedOutput in
  let deserialized := _json body in
  __decorateServiceException ThrottlingException
    (obj_spread [("$metadata", metadata_val (deserializeMetadata parsedOutput))]
                deserialized)
    body.

Definition de_ValidationExceptionRes (parsedOutput : Output JVal) : ServiceException :=
  let body := body parsedOutput in
  let deserialized := _json body in
  __decorateServiceException ValidationException
    (obj_spread [("$metadata", metadata_val (deserializeMetadata parsedOutput))]
                deserialized)
    body.

(** [case label:] of a [switch (errorCode)], compared with [===]. *)
Definition is_case (errorCode : option string) (label : string) : bool :=
  match errorCode with
  | Some c => String.eqb c label
  | None => false
  end.

(** The alternatives of the two response-stream unions, named as their
    members; [unknown] is the [$unknown] member. *)
Module ChatResponseStream.
Inductive t : Type :=
| messageMetadataEvent (v : JVal)
| assistantResponseEvent (v : JVal)
| dryRunSucceedEvent (v : JVal)
| codeReferenceEvent (v : JVal)
| supplementaryWebLinksEvent (v : JVal)
| followupPromptEvent (v : JVal)
| codeEvent (v : JVal)
| intentsEvent (v : JVal)
| interactionComponentsEvent (v : JVal)
| toolUseEvent (v : JVal)
| citationEvent (v : JVal)
| invalidStateEvent (v : JVal)
| error (e : ServiceException)
| unknown (output : Body).
End ChatResponseStream.

Module GenerateCodeFromCommandsResponseStream.
Inductive t : Type :=
| codeEvent (v : JVal)
| Error (e : ServiceException)
| QuotaLevelExceededError (e : ServiceException)
| ValidationError (e : ServiceException)
| unknown (output : Body).
End GenerateCodeFromCommandsResponseStream.

(** How a consumed event stream ended. *)
Inductive StreamEnd : Type :=
| EndOfStream
| ErrorEvent
| Rejected (e : Thrown).

(** A response stream, unfolded: the items it yields, in order, and how it
    ended. *)
Abbreviation Stream T := (list T * StreamEnd)%type.

(** [if (event[key] != null) { return f(event[key]) } rest] *)
Definition if_member {A : Type} (event : EventObject) (key : string)
    (f : Message -> Result A) (rest : Result A) : Result A :=
  match event !! key with
  | Some m => f m
  | None => rest
  end.

(** Modelled from the spec: the iteration of
    [context.eventStreamMarshaller.deserialize] is not part of the sources.
    Section 4.4: frames [(eventName, message)] are taken in arrival order and
    each is handed to the per-event callback as [{ [eventName]: message }];
    what the callback returns is yielded; after the frame of a reserved
    error-event name has been decoded and yielded, the sequence ends and no
    further frame is read; other frames, unrecognized ones included, let the
    iteration continue.  The reserved names are per operation (section 9). *)
Fixpoint deserialize_frames {T : Type} (errorNames : list string)
    (deserializer : EventObject -> Result T) (frames : list (string * Message))
    : Stream T :=
  match frames with
  | [] => ([], EndOfStream)
  | (eventName, message) :: rest =>
      match deserializer {[ eventName := message ]} with
      | Throw e => ([], Rejected e)
      | Return item =>
          if bool_decide (eventName ∈ errorNames)
          then ([item], ErrorEvent)
          else let (items, fin) := deserialize_frames errorNames deserializer rest in
               (item :: items, fin)
      end
  end.

(** [$metadata] and the response stream of a successful call. *)
Record CommandOutput (T : Type) : Type := mkCommandOutput {
  metadata : ResponseMetadata;
  responseStream : Stream T
}.
Arguments mkCommandOutput {T} _ _.
Arguments metadata {T} _.
Arguments responseStream {T} _.

Section Deserializers.

(** [parseJsonBody] and [parseJsonErrorBody] of [@aws-sdk/core]: collect
    the bytes and parse them as JSON, or reject. *)
Variable parseBody : Body -> Result JVal.
Variable parseErrorBody : Body -> Result JVal.

(** [loadRestJsonErrorCode] of [@aws-sdk/core]: the error code extracted
    from the response headers or the parsed body, already normalized;
    [None] is [undefined]. *)
Variable loadRestJsonErrorCode : Output Body -> JVal -> option string.

(** [__expectString] of [@smithy/smithy-client]. *)
Variable __expectString : JVal -> Result JVal.

(** The frame reader behind [context.eventStreamMarshaller]: the frames of
    a response body, in arrival order. *)
Variable frames : Body -> list (string * Message).

Definition throwDefaultError {A : Type} (output : Output Body) (parsedBody : JVal)
    (errorCode : option string) : Result A :=
  Throw (DefaultError output parsedBody errorCode).

Definition de_CommandError {A : Type} (output : Output Body) : Result A :=
  let* b := parseErrorBody (body output) in
  let parsedOutput := with_body output b in
  let errorCode := loadRestJsonErrorCode output (body parsedOutput) in
  if is_case errorCode "AccessDeniedException"
     || is_case errorCode "com.amazon.aws.codewhisperer#AccessDeniedException"
  then Throw (Service (de_AccessDeniedExceptionRes parsedOutput))
  else if is_case errorCode "InternalServerException"
     || is_case errorCode "com.amazon.aws.codewhisperer#InternalServerException"
  then Throw (Service (de_InternalServerExceptionRes parsedOutput))
  else if is_case errorCode "ThrottlingException"
     || is_case errorCode "com.amazon.aws.codewhisperer#ThrottlingException"
  then Throw (Service (de_ThrottlingExceptionRes parsedOutput))
  else if is_case errorCode "ValidationException"
     || is_case errorCode "com.amazon.aws.codewhisperer#ValidationException"
  then Throw (Service (de_ValidationExceptionRes parsedOutput))
  else if is_case errorCode "ConflictException"
     || is_case errorCode "com.amazon.aws.codewhisperer#ConflictException"
  then Throw (Service (de_ConflictExceptionRes parsedOutput))
  else if is_case errorCode "DryRunOperationException"
     || is_case errorCode "com.amazon.aws.codewhisperer#DryRunOperationException"
  then Throw (Service (de_DryRunOperationExceptionRes parsedOutput))
  else if is_case errorCode "ResourceNotFoundException"
     || is_case errorCode "com.amazon.aws.codewhisperer#ResourceNotFoundException"
  then Throw (Service (de_ResourceNotFoundExceptionRes parsedOutput))
  else if is_case errorCode "ServiceQuotaExceededException"
     || is_case errorCode "com.amazon.aws.codewhisperer#ServiceQuotaExceededException"
  then Throw (Service (de_ServiceQuotaExceededExceptionRes parsedOutput))
  else
    let parsedBody := body parsedOutput in
    throwDefaultError output parsedBody errorCode.

(** The event deserializers that copy the parsed payload:
    [Object.assign(contents, _json(data))] on a fresh [contents]. *)
Definition de_json_event (output : Message) : Result JVal :=
  let contents := [] in
  let* data := parseBody (body output) in
  Return (JObj (obj_spread contents (_json data))).

Definition de_AssistantResponseEvent_event := de_json_event.
Definition de_CitationEvent_event := de_json_event.
Definition de_CodeEvent_event := de_json_event.
Definition de_CodeReferenceEvent_event := de_json_event.
Definition de_DryRunSucceedEvent_event := de_json_event.
Definition de_FollowupPromptEvent_event := de_json_event.
Definition de_IntentsEvent_event := de_json_event.
Definition de_InvalidStateEvent_event := de_json_event.
Definition de_MessageMetadataEvent_event := de_json_event.
Definition de_SupplementaryWebLinksEvent_event := de_json_event.
Definition de_ToolUseEvent_event := de_json_event.

Definition de_InternalServerException_event (output : Message)
    : Result ServiceException :=
  let* b := parseBody (body output) in
  let parsedOutput := with_body output b in
  Return (de_InternalServerExceptionRes parsedOutput).

Definition de_ServiceQuotaExceededException_event (output : Message)
    : Result ServiceException :=
  let* b := parseBody (body output) in
  let parsedOutput := with_body output b in
  Return (de_ServiceQuotaExceededExceptionRes parsedOutput).

Definition de_ValidationException_event (output : Message)
    : Result ServiceException :=
  let* b := parseBody (body output) in
  let parsedOutput := with_body output b in
  Return (de_ValidationExceptionRes parsedOutput).

Definition de_InteractionComponent (output : JVal) : Result JVal :=
  take output
    [ ("action", pure_fn _json);
      ("alert", pure_fn _json);
      ("infrastructureUpdate", pure_fn _json);
      ("progress", pure_fn _json);
      ("resource", pure_fn _json);
      ("resourceList", pure_fn _json);
      ("section", pure_fn _json);
      ("step", pure_fn _json);
      ("suggestions", pure_fn _json);
      ("taskDetails", pure_fn _json);
      ("taskReference", pure_fn _json);
      ("text", pure_fn _json) ].

Definition de_InteractionComponentEntry (output : JVal) : Result JVal :=
  take output
    [ ("interactionComponent", ValueFn de_InteractionComponent);
      ("interactionComponentId", ValueFn __expectString) ].

(** [(output || [])]: the falsy values are replaced by the empty array. *)
Definition or_empty_array (output : JVal) : JVal :=
  match output with
  | JNull | JBool false | JNum 0 | JStr "" => JArr []
  | _ => output
  end.

Definition de_InteractionComponentEntryList (output : JVal) : Result JVal :=
  filter_map_entries de_InteractionComponentEntry (or_empty_array output).

Definition de_InteractionComponentsEvent (output : JVal) : Result JVal :=
  take output
    [ ("interactionComponentEntries", ValueFn de_InteractionComponentEntryList) ].

Definition de_InteractionComponentsEvent_event (output : Message) : Result JVal :=
  let contents := [] in
  let* data := parseBody (body output) in
  let* decoded := de_InteractionComponentsEvent data in
  Return (JObj (obj_spread contents decoded)).

(** The per-event callback of [de_ChatResponseStream]; [output] is the
    response body the stream deserializer was called with. *)
Definition de_ChatResponseStream_deserializer (output : Body) (event : EventObject)
    : Result ChatResponseStream.t :=
  if_member event "messageMetadataEvent"
    (fun m => let* r := de_MessageMetadataEvent_event m in
              Return (ChatResponseStream.messageMetadataEvent r)) (
  if_member event "assistantResponseEvent"
    (fun m => let* r := de_AssistantResponseEvent_event m in
              Return (ChatResponseStream.assistantResponseEvent r)) (
  if_member event "dryRunSucceedEvent"
    (fun m => let* r := de_DryRunSucceedEvent_event m in
              Return (ChatResponseStream.dryRunSucceedEvent r)) (
  if_member event "codeReferenceEvent"
    (fun m => let* r := de_CodeReferenceEvent_event m in
              Return (ChatResponseStream.codeReferenceEvent r)) (
  if_member event "supplementaryWebLinksEvent"
    (fun m => let* r := de_SupplementaryWebLinksEvent_event m in
              Return (ChatResponseStream.supplementaryWebLinksEvent r)) (
  if_member event "followupPromptEvent"
    (fun m => let* r := de_FollowupPromptEvent_event m in
              Return (ChatResponseStream.followupPromptEvent r)) (
  if_member event "codeEvent"
    (fun m => let* r := de_CodeEvent_event m in
              Return (ChatResponseStream.codeEvent r)) (
  if_member event "intentsEvent"
    (fun m => let* r := de_IntentsEvent_event m in
              Return (ChatResponseStream.intentsEvent r)) (
  if_member event "interactionComponentsEvent"
    (fun m => let* r := de_InteractionComponentsEvent_event m in
              Return (ChatResponseStream.interactionComponentsEvent r)) (
  if_member event "toolUseEvent"
    (fun m => let* r := de_ToolUseEvent_event m in
              Return (ChatResponseStream.toolUseEvent r)) (
  if_member event "citationEvent"
    (fun m => let* r := de_CitationEvent_event m in
              Return (ChatResponseStream.citationEvent r)) (
  if_member event "invalidStateEvent"
    (fun m => let* r := de_InvalidStateEvent_event m in
              Return (ChatResponseStream.invalidStateEvent r)) (
  if_member event "error"
    (fun m => let* r := de_InternalServerException_event m in
              Return (ChatResponseStream.error r)) (
  Return (ChatResponseStream.unknown output)))))))))))))).

Definition de_ChatResponseStream (output : Body) : Stream ChatResponseStream.t :=
  deserialize_frames ["error"] (de_ChatResponseStream_deserializer output)
                     (frames output).

(** The per-event callback of [de_GenerateCodeFromCommandsResponseStream]. *)
Definition de_GenerateCodeFromCommandsResponseStream_deserializer (output : Body)
    (event : EventObject) : Result GenerateCodeFromCommandsResponseStream.t :=
  if_member event "codeEvent"
    (fun m => let* r := de_CodeEvent_event m in
              Return (GenerateCodeFromCommandsResponseStream.codeEvent r)) (
  if_member event "Error"
    (fun m => let* r := de_InternalServerException_event m in
              Return (GenerateCodeFromCommandsResponseStream.Error r)) (
  if_member event "QuotaLevelExceededError"
    (fun m => let* r := de_ServiceQuotaExceededException_event m in
              Return (GenerateCodeFromCommandsResponseStream.QuotaLevelExceededError r)) (
  if_member event "ValidationError"
    (fun m => let* r := de_ValidationException_event m in
              Return (GenerateCodeFromCommandsResponseStream.ValidationError r)) (
  Return (GenerateCodeFromCommandsResponseStream.unknown output))))).

Definition de_GenerateCodeFromCommandsResponseStream (output : Body)
    : Stream GenerateCodeFromCommandsResponseStream.t :=
  deserialize_frames ["Error"; "QuotaLevelExceededError"; "ValidationError"]
                     (de_GenerateCodeFromCommandsResponseStream_deserializer output)
                     (frames output).

(** [output.statusCode >= 300]; a missing status code compares false. *)
Definition status_ge_300 (output : Output Body) : bool :=
  match statusCode output with
  | Some n => 300 <=? n
  | None => false
  end.

Definition de_GenerateCodeFromCommandsCommand (output : Output Body)
    : Result (CommandOutput GenerateCodeFromCommandsResponseStream.t) :=
  if status_ge_300 output then de_CommandError output
  else
    let contents := de_GenerateCodeFromCommandsResponseStream (body output) in
    Return {| metadata := deserializeMetadata output; responseStream := contents |}.

Definition de_SendMessageCommand (output : Output Body)
    : Result (CommandOutput ChatResponseStream.t) :=
  if status_ge_300 output then de_CommandError output
  else
    let contents := de_ChatResponseStream (body output) in
    Return {| metadata := deserializeMetadata output; responseStream := contents |}.

End Deserializers.

(** ** The error code of a response *)

Module AwsSdkCore.

(** The code has a namespace separator, [#]. *)
Fixpoint hasHash (code : string) : bool :=
  match code with
  | EmptyString => false
  | String c rest => Ascii.eqb c "#" || hasHash rest
  end.

(** Modelled from the spec: [loadRestJsonErrorCode] of [@aws-sdk/core] is
    not part of the sources.  Section 4.5: the code is normalized by
    stripping an optional namespace prefix, the text before and including
    the last [#]. *)
Fixpoint stripNamespace (code : string) : string :=
  match code with
  | EmptyString => EmptyString
  | String c rest =>
      if hasHash rest then stripNamespace rest
      else if Ascii.eqb c "#" then rest
      else code
  end.

(** Modelled from the spec: [loadRestJsonErrorCode] of [@aws-sdk/core] is
    not part of the sources.  Sections 4.5 and 6: the wire error code is the
    value of the response header that names the error code when the response
    has that header, and otherwise the string under [__type] of the parsed
    body.  The spec leaves the header unnamed; it is the parameter
    [errorHeader]. *)
Definition wireErrorCode (errorHeader : string) (output : Output Body) (data : JVal)
    : option string :=
  match headers output !! errorHeader with
  | Some code => Some code
  | None =>
      match prop "__type" data with
      | Some (JStr code) => Some code
      | _ => None
      end
  end.

(** Modelled from the spec: [loadRestJsonErrorCode] of [@aws-sdk/core] is
    not part of the sources.  Section 4.5: the extracted wire error code,
    normalized. *)
Definition loadRestJsonErrorCode (errorHeader : string) (output : Output Body)
    (data : JVal) : option string :=
  match wireErrorCode errorHeader output data with
  | Some code => Some (stripNamespace code)
  | None => None
  end.

End AwsSdkCore.

(** * The web page reading tool

    Shallow embedding of the [WebScrape] class (the tool that reads a web
    page through a headless browser).  Strings are sequences of UTF-16 code
    units.  The browser is outside the program: a run of the tool is
    determined by the outcome of each call it awaits, collected in a record,
    and the calls made are recorded in order. *)
Module WebScrape.

Abbreviation JsStr := (list N).

(** The code units of an ASCII literal. *)
Definition units (s : string) : JsStr := map N_of_ascii (list_ascii_of_string s).

(** The white space of [\s] in a regular expression, which is also what
    [trim] removes: TAB, LF, VT, FF, CR, SP, NBSP, U+1680, U+2000 to U+200A,
    U+2028, U+2029, U+202F, U+205F, U+3000 and U+FEFF. *)
Definition is_space (c : N) : bool :=
  ((9 <=? c) && (c <=? 13) || (c =? 32) || (c =? 160) || (c =? 5760)
   || (8192 <=? c) && (c <=? 8202) || (c =? 8232) || (c =? 8233) || (c =? 8239)
   || (c =? 8287) || (c =? 12288) || (c =? 65279))%N.

(** [text.replace(/\s+/g, ' ')]: every maximal run of white space becomes one
    space; [in_run] tells that the previous code unit was white space. *)
Fixpoint replace_space_runs (in_run : bool) (text : JsStr) : JsStr :=
  match text with
  | [] => []
  | c :: rest =>
      if is_space c
      then if in_run then replace_space_runs true rest
           else 32%N :: replace_space_runs true rest
      else c :: replace_space_runs false rest
  end.

Fixpoint trimStart (s : JsStr) : JsStr :=
  match s with
  | [] => []
  | c :: rest => if is_space c then trimStart rest else s
  end.

Fixpoint trimEnd (s : JsStr) : JsStr :=
  match s with
  | [] => []
  | c :: rest =>
      match trimEnd rest with
      | [] => if is_space c then [] else [c]
      | kept => c :: kept
      end
  end.

(** [s.trim()] *)
Definition trim (s : JsStr) : JsStr := trimEnd (trimStart s).

Definition cleanText (text : JsStr) : JsStr :=
  trim (replace_space_runs false text).

(** A string used as a condition: the empty string is falsy. *)
Definition truthy (s : JsStr) : bool :=
  match s with
  | [] => false
  | _ => true
  end.

(** [a || b] on strings *)
Definition or_else (a b : JsStr) : JsStr := if truthy a then a else b.

(** [parts.join(sep)] *)
Fixpoint join (sep : JsStr) (parts : list JsStr) : JsStr :=
  match parts with
  | [] => []
  | [p] => p
  | p :: rest => (p ++ sep ++ join sep rest)%list
  end.

(** What a call can throw: an [Error] with its message, or another value
    with its string form. *)
Inductive Thrown : Type :=
| ErrorObject (message : JsStr)
| OtherValue (asString : JsStr).

(** [error instanceof Error ? error.message : String(error)] *)
Definition errorMessage (error : Thrown) : JsStr :=
  match error with
  | ErrorObject message => message
  | OtherValue asString => asString
  end.

Inductive Outcome (A : Type) : Type :=
| Ok (a : A)
| Fail (error : Thrown).
Arguments Ok {A} _.
Arguments Fail {A} _.

(** The two [meta] attributes read by [getMetaDescription]; [None] when the
    element or its [content] attribute is missing. *)
Record MetaContent : Type := mkMeta {
  metaDescription : option JsStr;
  ogDescription : option JsStr
}.

(** The outcome of each awaited call of one run of [invoke]. *)
Record Run : Type := mkRun {
  launch : Outcome unit;
  newContext : Outcome unit;
  newPage : Outcome unit;
  setExtraHTTPHeaders : Outcome unit;
  goto : JsStr -> Outcome unit;
  waitForLoadState : Outcome unit;
  rawDocument : Outcome JsStr;
  mainContent : Outcome JsStr;
  title : Outcome JsStr;
  metaContent : Outcome MetaContent;
  close : Outcome unit
}.

(** The calls, as they are recorded. *)
Inductive Call : Type :=
| Launch
| NewContext
| NewPage
| SetExtraHTTPHeaders
| Goto (url : JsStr)
| WaitForLoadState
| EvaluateRawDocument
| EvaluateMainContent
| Title
| EvaluateMetaDescription
| Close.

(** [InvokeOutput]: the JSON output of a page that was read, or the text
    output of a failure. *)
Inductive InvokeOutput : Type :=
| JsonOutput (title description content : JsStr)
| TextOutput (content : JsStr) (success : bool).

(** A computation that awaits calls: from the calls made so far to its
    outcome and the calls made then. *)
Definition Awaiting (A : Type) : Type := list Call -> Outcome A * list Call.

Definition ret {A : Type} (a : A) : Awaiting A := fun calls => (Ok a, calls).

Definition await {A : Type} (call : Call) (outcome : Outcome A) : Awaiting A :=
  fun calls => (outcome, (calls ++ [call])%list).

Definition andThen {A B : Type} (m : Awaiting A) (k : A -> Awaiting B) : Awaiting B :=
  fun calls =>
    match m calls with
    | (Ok a, calls') => k a calls'
    | (Fail error, calls') => (Fail error, calls')
    end.

Notation "'await*' x ':=' m 'in' k" := (andThen m (fun x => k))
  (at level 10, x name, m at level 100, k at level 200).

(** [try { body } catch (error) { handler(error) }] *)
Definition tryCatch {A : Type} (body : Awaiting A) (handler : Thrown -> Awaiting A)
    : Awaiting A :=
  fun calls =>
    match body calls with
    | (Ok a, calls') => (Ok a, calls')
    | (Fail error, calls') => handler error calls'
    end.

(** [... finally { cleanup }]: the cleanup runs in either case, and a
    failure of the cleanup replaces the outcome. *)
Definition finally {A : Type} (m : Awaiting A) (cleanup : Awaiting unit) : Awaiting A :=
  fun calls =>
    match m calls with
    | (outcome, calls') =>
        match cleanup calls' with
        | (Ok _, calls'') => (outcome, calls'')
        | (Fail error, calls'') => (Fail error, calls'')
        end
    end.

(** [WebScrapeParams] and the fields set by the constructor. *)
Record WebScrapeParams : Type := mkParams {
  param_url : JsStr;
  param_rawHTML : option bool
}.

Record Tool : Type := mkTool {
  url : JsStr;
  rawHTML : bool
}.

Definition constructor (params : WebScrapeParams) : Tool :=
  {| url := param_url params;
     rawHTML := default false (param_rawHTML params) |}.

(** [s.includes(t)] *)
Fixpoint startsWith (s t : JsStr) : bool :=
  match t, s with
  | [], _ => true
  | _ :: _, [] => false
  | d :: t', c :: s' => (c =? d)%N && startsWith s' t'
  end.

Fixpoint includes (s t : JsStr) : bool :=
  startsWith s t
  || match s with
     | [] => false
     | _ :: rest => includes rest t
     end.

Section PageFunction.

(** The document that the page function of [extractMainContent] runs in,
    through the queries the function makes. *)
Variable Element : Type.

(** [el.textContent] *)
Variable textContent : Element -> option JsStr.

(** [clone.textContent] of the clone of [el] from which the [script],
    [style], [iframe], [noscript], [svg], [canvas] and [img] elements were
    removed. *)
Variable contentText : Element -> option JsStr.

(** [el.querySelectorAll('p, h1, h2, h3, h4, h5, h6, li, span, a')] *)
Variable querySelectorAll : Element -> list Element.

(** [div.className] and the host's [toLowerCase]. *)
Variable className : Element -> JsStr.
Variable toLowerCase : JsStr -> JsStr.

(** [document.querySelector(selector)], which may throw. *)
Variable querySelector : JsStr -> Outcome (option Element).

(** [document.querySelectorAll('p, h1, h2, h3, h4, h5, h6, a, li, span')] and
    [document.querySelectorAll('div')]. *)
Variable paragraphsAndHeaders : list Element.
Variable divs : list Element.

(** [document.body.textContent], which throws when there is no body. *)
Variable bodyTextContent : Outcome (option JsStr).

Definition trimmed (value : option JsStr) : JsStr :=
  match value with
  | Some v => trim v
  | None => []
  end.

(** An attribute selector [div[attribute="value"]]; 34 is the double quote. *)
Definition div_attribute (attribute value : string) : JsStr :=
  (units "div[" ++ units attribute ++ [34%N] ++ units value ++ [34%N] ++ units "]")%list.

Definition mainContentSelectors : list JsStr :=
  [ units "main"; units "article"; div_attribute "role=" "main";
    units ".main-content"; units "#content"; units ".content"; units ".article";
    units "#main"; units "section.content"; div_attribute "class*=" "content";
    div_attribute "class*=" "article"; div_attribute "id*=" "content";
    div_attribute "id*=" "article" ].

(** The loop that fills [contentParts]. *)
Fixpoint contentParts (elements : list Element) : list JsStr :=
  match elements with
  | [] => []
  | el :: rest =>
      let cleanedText := cleanText (or_else (default [] (contentText el)) []) in
      if truthy cleanedText
      then cleanedText :: contentParts rest
      else contentParts rest
  end.

(** [if (elements.length > 0) { ...; if (contentParts.length > 0) return
    contentParts.join('\n\n') }]; [None] when control falls through. *)
Definition joinedParts (elements : list Element) : option JsStr :=
  match elements with
  | [] => None
  | _ :: _ =>
      match contentParts elements with
      | [] => None
      | parts => Some (join [10; 10]%N parts)
      end
  end.

(** One round of the loop over the selectors; [None] when the round goes
    on to the next selector. *)
Definition trySelector (selector : JsStr) : option JsStr :=
  match querySelector selector with
  | Fail _ => None
  | Ok None => None
  | Ok (Some mainElement) =>
      if truthy (trimmed (textContent mainElement))
      then match joinedParts (querySelectorAll mainElement) with
           | Some content => Some content
           | None =>
               let mainText :=
                 cleanText (or_else (default [] (contentText mainElement)) []) in
               if truthy mainText then Some mainText else None
           end
      else None
  end.

Fixpoint trySelectors (selectors : list JsStr) : option JsStr :=
  match selectors with
  | [] => None
  | selector :: rest =>
      match trySelector selector with
      | Some content => Some content
      | None => trySelectors rest
      end
  end.

(** The filter of the [div] elements. *)
Definition substantial (div : Element) : bool :=
  let text := or_else (trimmed (textContent div)) [] in
  let className := toLowerCase (className div) in
  (100 <? List.length text)%nat
  && negb (includes className (units "nav"))
  && negb (includes className (units "footer"))
  && negb (includes className (units "header"))
  && negb (includes className (units "sidebar"))
  && negb (includes className (units "menu"))
  && negb (includes className (units "comment")).

(** The function that [extractMainContent] evaluates in the page. *)
Definition mainContentOfPage : Outcome JsStr :=
  match trySelectors mainContentSelectors with
  | Some content => Ok content
  | None =>
      match joinedParts paragraphsAndHeaders with
      | Some content => Ok content
      | None =>
          match joinedParts (List.filter substantial divs) with
          | Some content => Ok content
          | None =>
              match bodyTextContent with
              | Ok text => Ok (or_else (trimmed text) [])
              | Fail error => Fail error
              end
          end
      end
  end.

End PageFunction.

Section Invoke.

(** [webScrapeToolResponseSize] of [toolShared]. *)
Variable webScrapeToolResponseSize : nat.

Variable run : Run.

(** [value?.trim()] of an attribute that may be missing; a missing one
    counts as empty under [||]. *)
Definition trimmed_or_empty (value : option JsStr) : JsStr :=
  match value with
  | Some v => trim v
  | None => []
  end.

Definition getMetaDescription : Awaiting JsStr :=
  await* meta := await EvaluateMetaDescription (metaContent run) in
  ret (or_else (trimmed_or_empty (metaDescription meta))
               (or_else (trimmed_or_empty (ogDescription meta)) [])).

Definition getRawDocument : Awaiting JsStr :=
  await EvaluateRawDocument (rawDocument run).

(** The page function of [extractMainContent] runs in the browser; its
    result is an outcome of the run. *)
Definition extractMainContent : Awaiting JsStr :=
  await EvaluateMainContent (mainContent run).

(** The body of the [try] block, after the browser was launched. *)
Definition readPage (this : Tool) : Awaiting InvokeOutput :=
  await* _ := await NewContext (newContext run) in
  await* _ := await NewPage (newPage run) in
  await* _ := await SetExtraHTTPHeaders (setExtraHTTPHeaders run) in
  await* _ := await (Goto (url this)) (goto run (url this)) in
  await* _ := await WaitForLoadState (waitForLoadState run) in
  await* content := (if rawHTML this then getRawDocument else extractMainContent) in
  let content :=
    if (webScrapeToolResponseSize <? List.length content)%nat
    then firstn webScrapeToolResponseSize content
    else content in
  await* title := await Title (title run) in
  await* description := getMetaDescription in
  ret (JsonOutput title description content).

(** [invoke]; the second component of the [try] block's result tells
    whether [browser] was assigned. *)
Definition invoke (this : Tool) : Awaiting InvokeOutput :=
  fun calls =>
    match await Launch (launch run) calls with
    | (Fail error, calls') =>
        (* [browser] is still undefined: the handler runs, nothing is closed *)
        (Ok (TextOutput (units "Error reading web page: " ++ errorMessage error)%list
                        false),
         calls')
    | (Ok _, calls') =>
        finally
          (tryCatch (readPage this)
             (fun error =>
                ret (TextOutput
                       (units "Error reading web page: " ++ errorMessage error)%list
                       false)))
          (await Close (close run))
          calls'
    end.

End Invoke.

(** *** Vocabulary of the statements on texts *)

(** Every white space of [s] is a single U+0020 with no white space next to
    it; [after_space] tells that white space precedes [s]. *)
Fixpoint collapsed (after_space : bool) (s : JsStr) : bool :=
  match s with
  | [] => true
  | c :: rest =>
      if is_space c
      then (c =? 32)%N && negb after_space && collapsed true rest
      else collapsed false rest
  end.

(** A clean text: no white space at either end, and inside only single
    spaces. *)
Definition clean (s : JsStr) : Prop :=
  collapsed false s = true /\ trimStart s = s /\ trimEnd s = s.

Definition not_space (c : N) : bool := negb (is_space c).

(** A part of the content: not empty, no white space at either end. *)
Definition is_part (p : JsStr) : Prop := p <> [] /\ trimStart p = p /\ trimEnd p = p.

(** *** Vocabulary of the statements on [invoke] *)

Definition is_Close (call : Call) : bool :=
  match call with
  | Close => true
  | _ => false
  end.

Definition failed {A : Type} (outcome : Outcome A) : option Thrown :=
  match outcome with
  | Ok _ => None
  | Fail error => Some error
  end.

(** The document text that a run gives the tool. *)
Definition pageText (run : Run) (this : Tool) : Outcome JsStr :=
  if rawHTML this then rawDocument run else mainContent run.

(** The failures of the calls of a run before [close], in the order of the
    calls. *)
Definition callFailures (run : Run) (this : Tool) : list (option Thrown) :=
  [ failed (launch run); failed (newContext run); failed (newPage run);
    failed (setExtraHTTPHeaders run); failed (goto run (url this));
    failed (waitForLoadState run); failed (pageText run this);
    failed (title run); failed (metaContent run) ].

Fixpoint firstFailure (failures : list (option Thrown)) : option Thrown :=
  match failures with
  | [] => None
  | Some error :: _ => Some error
  | None :: rest => firstFailure rest
  end.

Definition failureOutput (error : Thrown) : InvokeOutput :=
  TextOutput (units "Error reading web page: " ++ errorMessage error)%list false.

End WebScrape.

(** ** Sample inputs

    Concrete collaborators and inputs at which the statements below are
    evaluated. *)
Module Sample.

(** An encoder stand-in that tags its argument's size. *)
Definition base64 (v : JVal) : string :=
  match v with
  | JBytes bs => "base64:" ++ pretty (N.of_nat (List.length bs))
  | _ => "base64:?"
  end.

Definition context : SerdeContext :=
  {| endpoint := {| ep_hostname := "q.us-east-1.amazonaws.com";
                    ep_protocol := None; ep_port := None; ep_path := "/v1/" |};
     base64Encoder := base64 |}.

(** Four payloads, told apart by their single byte, and their parsed forms. *)
Definition payload_metadata : Body := [Byte.x01].
Definition payload_text : Body := [Byte.x02].
Definition payload_throttled : Body := [Byte.x03].
Definition payload_spoofed : Body := [Byte.x04].

Definition parse (raw : Body) : Result JVal :=
  match raw with
  | [Byte.x01] => Return (JObj [("conversationId", JStr "c-1")])
  | [Byte.x02] => Return (JObj [("content", JStr "hello")])
  | [Byte.x03] =>
      Return (JObj [("__type", JStr "ThrottlingException");
                    ("message", JStr "slow down")])
  | [Byte.x04] =>
      Return (JObj [("__type", JStr "ValidationException");
                    ("$metadata", JObj [("httpStatusCode", JNum 200)])])
  | _ => Throw (ParseError raw)
  end.

(** An extractor that reads the [x-amzn-errortype] header, then the
    [__type] member of the parsed body. *)
Definition errorCode (output : Output Body) (data : JVal) : option string :=
  match headers output !! "x-amzn-errortype" with
  | Some c => Some c
  | None =>
      match prop "__type" data with
      | Some (JStr c) => Some c
      | _ => None
      end
  end.

Definition expectString (v : JVal) : Result JVal :=
  match v with
  | JStr _ => Return v
  | _ => Throw (TypeError "Expected string")
  end.

Definition message (raw : Body) : Message := mkOutput None ∅ raw.

Definition metadataEvent : string * Message :=
  ("messageMetadataEvent", message payload_metadata).
Definition textEvent : string * Message :=
  ("assistantResponseEvent", message payload_text).
Definition textEvent2 : string * Message :=
  ("assistantResponseEvent", message payload_metadata).
Definition errorEvent : string * Message :=
  ("error", message payload_throttled).
Definition futureEvent : string * Message :=
  ("futureEventName", message payload_text).

(** A response whose body carries the frames of section 8. *)
Definition stream_body : Body := [Byte.x10].
Definition frames (raw : Body) : list (string * Message) :=
  match raw with
  | [Byte.x10] => [metadataEvent; textEvent; errorEvent; textEvent2]
  | [Byte.x11] => [metadataEvent; futureEvent; textEvent]
  | _ => []
  end.

Definition throttled_response : Output Body :=
  mkOutput (Some 429) {[ "x-amzn-requestid" := "abc-123" ]} payload_throttled.

Definition spoofed_response : Output Body :=
  mkOutput (Some 400) {[ "x-amzn-requestid" := "abc-123" ]} payload_spoofed.

(** A response that names its error in the header. *)
Definition error_response (code : string) : Output Body :=
  mkOutput (Some 400) {[ "x-amzn-errortype" := code ]} payload_text.

(** Two conversation states that differ in the tag of an unrecognized
    current message only. *)
Definition state_foo : JVal :=
  JObj [("conversationId", JStr "c-1");
        ("currentMessage", JObj [("$unknown", JArr [JStr "foo"; JNum 1])])].
Definition state_bar : JVal :=
  JObj [("conversationId", JStr "c-1");
        ("currentMessage", JObj [("$unknown", JArr [JStr "bar"; JNum 1])])].

Definition toolUse : JVal :=
  JObj [("input", JObj [("path", JStr "/tmp"); ("depth", JNull)]);
        ("name", JStr "fsRead")].




End Sample.

(** A page that is read, and runs of the tool on it. *)
Module SamplePage.
Import WebScrape.

Definition run : Run :=
  {| launch := Ok tt; newContext := Ok tt; newPage := Ok tt;
     setExtraHTTPHeaders := Ok tt; goto := fun _ => Ok tt;
     waitForLoadState := Ok tt;
     rawDocument := Ok (units "<html></html>");
     mainContent := Ok (units "Hello world");
     title := Ok (units "Greeting");
     metaContent := Ok (mkMeta (Some (units " A greeting ")) None);
     close := Ok tt |}.

(** The same run, except that closing the browser fails. *)
Definition run_close_fails : Run :=
  {| launch := Ok tt; newContext := Ok tt; newPage := Ok tt;
     setExtraHTTPHeaders := Ok tt; goto := fun _ => Ok tt;
     waitForLoadState := Ok tt;
     rawDocument := Ok (units "<html></html>");
     mainContent := Ok (units "Hello world");
     title := Ok (units "Greeting");
     metaContent := Ok (mkMeta (Some (units " A greeting ")) None);
     close := Fail (ErrorObject (units "Target closed")) |}.

Definition tool : Tool :=
  constructor {| param_url := units "https://example.com"; param_rawHTML := None |}.

End SamplePage.

(** ** Vocabulary of the statements *)

(** The first header of [names] that [h] has. *)
Fixpoint first_present (names : list string) (h : HeaderBag) : option string :=
  match names with
  | [] => None
  | name :: rest =>
      match h !! name with
      | Some v => Some v
      | None => first_present rest h
      end
  end.

(** The wire names of an exception: bare and namespace-qualified. *)
Definition bare_name (k : ExceptionCtor) : string :=
  match k with
  | AccessDeniedException => "AccessDeniedException"
  | ConflictException => "ConflictException"
  | DryRunOperationException => "DryRunOperationException"
  | InternalServerException => "InternalServerException"
  | ResourceNotFoundException => "ResourceNotFoundException"
  | ServiceQuotaExceededException => "ServiceQuotaExceededException"
  | ThrottlingException => "ThrottlingException"
  | ValidationException => "ValidationException"
  end.

Definition qualified_name (k : ExceptionCtor) : string :=
  "com.amazon.aws.codewhisperer#" ++ bare_name k.

(** The error code names the exception [k], in either form. *)
Definition names (errorCode : option string) (k : ExceptionCtor) : Prop :=
  errorCode = Some (bare_name k) \/ errorCode = Some (qualified_name k).

Definition known_exceptions : list ExceptionCtor :=
  [ AccessDeniedException; ConflictException; DryRunOperationException;
    InternalServerException; ResourceNotFoundException;
    ServiceQuotaExceededException; ThrottlingException; ValidationException ].

(** The exception deserializer of each constructor. *)
Definition exceptionRes (k : ExceptionCtor) : Output JVal -> ServiceException :=
  match k with
  | AccessDeniedException => de_AccessDeniedExceptionRes
  | ConflictException => de_ConflictExceptionRes
  | DryRunOperationException => de_DryRunOperationExceptionRes
  | InternalServerException => de_InternalServerExceptionRes
  | ResourceNotFoundException => de_ResourceNotFoundExceptionRes
  | ServiceQuotaExceededException => de_ServiceQuotaExceededExceptionRes
  | ThrottlingException => de_ThrottlingExceptionRes
  | ValidationException => de_ValidationExceptionRes
  end.

(** The [$metadata] member that an exception was constructed with. *)
Definition carried_metadata (e : ServiceException) : option JVal :=
  assoc "$metadata" (ex_opts e).

(** The event names of the decode table of [de_ChatResponseStream], the
    reserved error-event name included. *)
Definition ChatResponseStream_names : list string :=
  [ "messageMetadataEvent"; "assistantResponseEvent"; "dryRunSucceedEvent";
    "codeReferenceEvent"; "supplementaryWebLinksEvent"; "followupPromptEvent";
    "codeEvent"; "intentsEvent"; "interactionComponentsEvent"; "toolUseEvent";
    "citationEvent"; "invalidStateEvent"; "error" ].

Definition GenerateCodeFromCommandsResponseStream_names : list string :=
  [ "codeEvent"; "Error"; "QuotaLevelExceededError"; "ValidationError" ].

(** The member name of an alternative of the response-stream unions. *)
Definition ChatResponseStream_tag (item : ChatResponseStream.t) : string :=
  match item with
  | ChatResponseStream.messageMetadataEvent _ => "messageMetadataEvent"
  | ChatResponseStream.assistantResponseEvent _ => "assistantResponseEvent"
  | ChatResponseStream.dryRunSucceedEvent _ => "dryRunSucceedEvent"
  | ChatResponseStream.codeReferenceEvent _ => "codeReferenceEvent"
  | ChatResponseStream.supplementaryWebLinksEvent _ => "supplementaryWebLinksEvent"
  | ChatResponseStream.followupPromptEvent _ => "followupPromptEvent"
  | ChatResponseStream.codeEvent _ => "codeEvent"
  | ChatResponseStream.intentsEvent _ => "intentsEvent"
  | ChatResponseStream.interactionComponentsEvent _ => "interactionComponentsEvent"
  | ChatResponseStream.toolUseEvent _ => "toolUseEvent"
  | ChatResponseStream.citationEvent _ => "citationEvent"
  | ChatResponseStream.invalidStateEvent _ => "invalidStateEvent"
  | ChatResponseStream.error _ => "error"
  | ChatResponseStream.unknown _ => "$unknown"
  end.

Definition GenerateCodeFromCommandsResponseStream_tag
    (item : GenerateCodeFromCommandsResponseStream.t) : string :=
  match item with
  | GenerateCodeFromCommandsResponseStream.codeEvent _ => "codeEvent"
  | GenerateCodeFromCommandsResponseStream.Error _ => "Error"
  | GenerateCodeFromCommandsResponseStream.QuotaLevelExceededError _ =>
      "QuotaLevelExceededError"
  | GenerateCodeFromCommandsResponseStream.ValidationError _ => "ValidationError"
  | GenerateCodeFromCommandsResponseStream.unknown _ => "$unknown"
  end.

(** A path with a final separator ensured. *)
Definition with_final_slash (p : string) : string :=
  if JsString.endsWith p "/" then p else p ++ "/".

(** The member [k] as a field table sees it: an explicit [null] reads as
    absent. *)
Definition present_member (k : string) (x : JVal) : option JVal :=
  if nonNullish (prop k x) then prop k x else None.




(** [g] encodes an array entry by entry with [f]: [null] entries are
    skipped, the others are encoded in order, and the first entry that [f]
    fails on makes [g] fail in the same way. *)
Definition encodes_entries (f g : JVal -> Result JVal) : Prop :=
  forall xs : list JVal,
    (forall w, g (JArr xs) = Return w
               <-> exists ys, w = JArr ys
                              /\ Forall2 (fun x y => f x = Return y)
                                         (List.filter nonNull xs) ys)
    /\ (forall e, g (JArr xs) = Throw e
                  <-> exists pre x post ys,
                        List.filter nonNull xs = (pre ++ x :: post)%list
                        /\ Forall2 (fun x y => f x = Return y) pre ys
                        /\ f x = Throw e).

(** * Properties *)

(** ** Facts on strings *)

Section JsStringFacts.
Import JsString.

Lemma string_length_app (s t : string) :
  String.length (s ++ t) = (String.length s + String.length t)%nat.
Proof. induction s as [|c s IH]; simpl; [reflexivity | now rewrite IH]. Qed.

Lemma substring_skip (s t : string) (n : nat) :
  substring (String.length s) n (s ++ t) = substring 0 n t.
Proof. induction s as [|c s IH]; simpl; [reflexivity | exact IH]. Qed.

Lemma substring_take (s t : string) :
  substring 0 (String.length s) (s ++ t) = s.
Proof.
  induction s as [|c s IH]; simpl.
  - now destruct t.
  - now rewrite IH.
Qed.

Lemma substring_all (t : string) : substring 0 (String.length t) t = t.
Proof. induction t as [|c t IH]; simpl; [reflexivity | now rewrite IH]. Qed.

Lemma substring_split (s : string) (n : nat) :
  (n <= String.length s)%nat ->
  s = substring 0 n s ++ substring n (String.length s - n) s.
Proof.
  revert n; induction s as [|c s IH]; intros [|n] Hn; simpl in *;
    try reflexivity; try lia.
  - now rewrite substring_all.
  - change (String c s
            = String c (substring 0 n s ++ substring n (String.length s - n) s)).
    f_equal. apply IH. lia.
Qed.

Lemma endsWith_app (b t : string) : endsWith (b ++ t) t = true.
Proof.
  unfold endsWith. rewrite string_length_app.
  replace (String.length b + String.length t - String.length t)%nat
    with (String.length b) by lia.
  rewrite substring_skip, substring_all, String.eqb_refl.
  rewrite andb_true_r. apply Nat.leb_le. lia.
Qed.

Lemma endsWith_inv (s t : string) :
  endsWith s t = true -> exists b, s = b ++ t.
Proof.
  unfold endsWith. intros H. apply andb_true_iff in H as [Hlen Heq].
  apply Nat.leb_le in Hlen. apply String.eqb_eq in Heq.
  exists (substring 0 (String.length s - String.length t) s).
  pose proof (substring_split s (String.length s - String.length t)
                ltac:(lia)) as Hs.
  replace (String.length s - (String.length s - String.length t))%nat
    with (String.length t) in Hs by lia.
  rewrite Heq in Hs. exact Hs.
Qed.

Lemma slice_drop_last (b : string) (c : ascii) :
  slice (b ++ String c "") 0 (-1) = b.
Proof.
  unfold slice. rewrite string_length_app. simpl String.length.
  replace (0 <? 0) with false by reflexivity.
  replace (-1 <? 0) with true by reflexivity.
  rewrite Z.min_l by lia. rewrite Z.max_l by lia.
  replace (Z.to_nat 0) with 0%nat by reflexivity.
  replace (Z.to_nat (Z.of_nat (String.length b + 1) + -1 - 0))
    with (String.length b) by lia.
  apply substring_take.
Qed.

End JsStringFacts.

(** ** The request envelope *)

(** C7.  The request built by [buildHttpRpcRequest] has method POST; its path
    is the base path followed by the operation path, the base path losing its
    final separator when it ends with one; the body is attached exactly when
    one is given.  Both ["/v1/"] and ["/v1"] joined with ["/chat"] give
    ["/v1/chat"]. *)
Theorem buildHttpRpcRequest_envelope :
  forall (ep : Endpoint) (hdrs : HeaderBag) (path : string)
         (resolvedHostname : option string) (body : option string),
    let request := buildHttpRpcRequest ep hdrs path resolvedHostname body in
    req_method request = "POST"
    /\ (forall b, ep_path ep = b ++ "/" -> req_path request = b ++ path)
    /\ ((forall b, ep_path ep <> b ++ "/") -> req_path request = ep_path ep ++ path)
    /\ req_body request = body
    /\ req_headers request = hdrs
    /\ req_path (buildHttpRpcRequest (mkEndpoint "h" None None "/v1/") hdrs "/chat"
                   resolvedHostname body) = "/v1/chat"
    /\ req_path (buildHttpRpcRequest (mkEndpoint "h" None None "/v1") hdrs "/chat"
                   resolvedHostname body) = "/v1/chat".
Proof.
  intros ep hdrs path rh body request.
  assert (Hpath : req_path request
                  = if JsString.endsWith (ep_path ep) "/"
                    then JsString.slice (ep_path ep) 0 (-1) ++ path
                    else ep_path ep ++ path).
  { unfold request, buildHttpRpcRequest. destruct rh, body; reflexivity. }
  repeat split.
  - unfold request, buildHttpRpcRequest. destruct rh, body; reflexivity.
  - intros b Hb. rewrite Hpath, Hb, endsWith_app.
    now rewrite slice_drop_last.
  - intros Hno. rewrite Hpath.
    destruct (JsString.endsWith (ep_path ep) "/") eqn:E; [|reflexivity].
    apply endsWith_inv in E as [b Hb]. now destruct (Hno b).
  - unfold request, buildHttpRpcRequest. destruct rh, body; reflexivity.
  - unfold request, buildHttpRpcRequest. destruct rh, body; reflexivity.
  - destruct rh, body; reflexivity.
  - destruct rh, body; reflexivity.
Qed.

(** The joined path of the sample endpoint, whose base path is ["/v1/"]. *)
Lemma buildHttpRpcRequest_envelope_witness :
  req_path (buildHttpRpcRequest (endpoint Sample.context) ∅ "/chat" None None)
  = "/v1/chat".
Proof.
  pose proof (buildHttpRpcRequest_envelope (endpoint Sample.context) ∅ "/chat"
                None None) as H.
  cbv zeta in H. destruct H as (_ & Hslash & _).
  exact (Hslash "/v1" eq_refl).
Defined.

(** ** Response metadata *)

(** C8.  The metadata of a response has the response's status code, the
    request id of the first present of [x-amzn-requestid],
    [x-amzn-request-id], [x-amz-request-id], the extended request id of
    [x-amz-id-2] and the edge-cache id of [x-amz-cf-id]. *)
Theorem deserializeMetadata_headers :
  forall (B : Type) (output : Output B),
    let m := deserializeMetadata output in
    httpStatusCode m = statusCode output
    /\ requestId m
       = first_present ["x-amzn-requestid"; "x-amzn-request-id"; "x-amz-request-id"]
                       (headers output)
    /\ extendedRequestId m = headers output !! "x-amz-id-2"
    /\ cfId m = headers output !! "x-amz-cf-id".
Proof.
  intros B output m. unfold m, deserializeMetadata; simpl.
  repeat split.
  destruct (headers output !! "x-amzn-requestid"); [reflexivity|].
  destruct (headers output !! "x-amzn-request-id"); [reflexivity|].
  destruct (headers output !! "x-amz-request-id"); reflexivity.
Qed.

Example deserializeMetadata_sample :
  deserializeMetadata Sample.throttled_response
  = mkMetadata (Some 429) (Some "abc-123") None None.
Proof. reflexivity. Qed.

(** ** Objects *)

Section ObjectFacts.

Lemma assoc_obj_set_eq (k : string) (v : JVal) (fs : Fields) :
  assoc k (obj_set k v fs) = Some v.
Proof.
  induction fs as [|[k' v'] fs IH]; simpl.
  - now rewrite String.eqb_refl.
  - destruct (String.eqb k' k) eqn:E; simpl; rewrite E; [reflexivity | exact IH].
Qed.

Lemma assoc_obj_set_ne (k k' : string) (v : JVal) (fs : Fields) :
  k' <> k -> assoc k (obj_set k' v fs) = assoc k fs.
Proof.
  intros Hne. induction fs as [|[k0 v0] fs IH]; simpl.
  - apply String.eqb_neq in Hne. now rewrite Hne.
  - destruct (String.eqb k0 k') eqn:E; simpl.
    + apply String.eqb_eq in E; subst k0.
      apply String.eqb_neq in Hne. now rewrite Hne.
    + destruct (String.eqb k0 k); [reflexivity | exact IH].
Qed.

Lemma assoc_None_cons (k k' : string) (v : JVal) (fs : Fields) :
  assoc k ((k', v) :: fs) = None -> k' <> k /\ assoc k fs = None.
Proof.
  simpl. destruct (String.eqb_spec k' k); [discriminate | now split].
Qed.

(** A spread overwrites exactly the members that its argument has. *)
Lemma assoc_obj_spread_absent (k : string) (target : Fields) (v : JVal) :
  assoc k (own_entries v) = None ->
  assoc k (obj_spread target v) = assoc k target.
Proof.
  unfold obj_spread. generalize (own_entries v) as es.
  intros es; revert target.
  induction es as [|[k' x] es IH]; intros target Hk; simpl; [reflexivity|].
  apply assoc_None_cons in Hk as [Hne Hk].
  rewrite (IH _ Hk). now apply assoc_obj_set_ne.
Qed.

Lemma assoc_absent (k : string) (fs : Fields) : k ∉ fs.*1 -> assoc k fs = None.
Proof.
  induction fs as [|[k' v] fs IH]; intros Hk; simpl; [reflexivity|].
  rewrite fmap_cons in Hk. apply not_elem_of_cons in Hk as [Hne Hk]. simpl in Hne.
  destruct (String.eqb_spec k' k); [congruence | now apply IH].
Qed.

(** A spread writes each member of its argument over the target and leaves
    the other members of the target alone. *)
Lemma assoc_obj_spread (k : string) (target : Fields) (v : JVal) :
  NoDup (own_entries v).*1 ->
  assoc k (obj_spread target v)
  = match assoc k (own_entries v) with
    | Some x => Some x
    | None => assoc k target
    end.
Proof.
  unfold obj_spread. generalize (own_entries v) as es.
  intros es; revert target.
  induction es as [|[k' y] es IH]; intros target Hnd; [reflexivity|].
  rewrite fmap_cons in Hnd. apply NoDup_cons in Hnd as [Hnotin Hnd].
  simpl in Hnotin. simpl. rewrite (IH _ Hnd).
  destruct (String.eqb_spec k' k) as [->|Hne].
  - rewrite (assoc_absent k es Hnotin). apply assoc_obj_set_eq.
  - destruct (assoc k es); [reflexivity|]. now apply assoc_obj_set_ne.
Qed.

End ObjectFacts.

(** ** Field tables *)

Section TakeFacts.

Lemma take_into_other (k : string) (source : JVal) (ins : Instructions) :
  forall target out,
    take_into target source ins = Return out ->
    k ∉ ins.*1 ->
    assoc k out = assoc k target.
Proof.
  induction ins as [|[k' i] ins IH]; intros target out Hrun Hk; simpl in *.
  - now injection Hrun as ->.
  - apply not_elem_of_cons in Hk as [Hne Hrest].
    unfold applyInstruction in Hrun.
    destruct (prop k' source) as [x|]; [destruct (nonNull x)|]; simpl in Hrun.
    + destruct (valueFn i x) as [y|e]; simpl in Hrun; [|discriminate].
      rewrite (IH _ _ Hrun Hrest). apply assoc_obj_set_ne. congruence.
    + exact (IH _ _ Hrun Hrest).
    + exact (IH _ _ Hrun Hrest).
Qed.

(** What a table writes under one of its field names. *)
Lemma take_into_field (k : string) (i : Instruction) (source : JVal)
    (ins : Instructions) :
  forall target out,
    take_into target source ins = Return out ->
    NoDup ins.*1 ->
    (k, i) ∈ ins ->
    match prop k source with
    | Some x =>
        if nonNull x
        then exists y, valueFn i x = Return y /\ assoc k out = Some y
        else assoc k out = assoc k target
    | None => assoc k out = assoc k target
    end.
Proof.
  induction ins as [|[k' i'] ins IH]; intros target out Hrun Hnd Hin.
  - now apply elem_of_nil in Hin.
  - rewrite fmap_cons in Hnd. apply NoDup_cons in Hnd as [Hnotin Hnd'].
    simpl in Hnotin, Hrun.
    apply elem_of_cons in Hin as [Heq|Hin].
    + injection Heq as <- <-.
      unfold applyInstruction in Hrun.
      destruct (prop k source) as [x|]; [destruct (nonNull x)|]; simpl in Hrun.
      * destruct (valueFn i x) as [y|e]; simpl in Hrun; [|discriminate].
        exists y. split; [reflexivity|].
        rewrite (take_into_other k _ _ _ _ Hrun Hnotin).
        apply assoc_obj_set_eq.
      * exact (take_into_other k _ _ _ _ Hrun Hnotin).
      * exact (take_into_other k _ _ _ _ Hrun Hnotin).
    + assert (Hne : k' <> k).
      { intros ->. apply Hnotin.
        apply list_elem_of_fmap. now exists (k, i). }
      unfold applyInstruction in Hrun.
      destruct (prop k' source) as [x'|]; [destruct (nonNull x')|]; simpl in Hrun.
      * destruct (valueFn i' x') as [y'|e]; simpl in Hrun; [|discriminate].
        specialize (IH _ _ Hrun Hnd' Hin).
        rewrite (assoc_obj_set_ne k k' y' target Hne) in IH. exact IH.
      * exact (IH _ _ Hrun Hnd' Hin).
      * exact (IH _ _ Hrun Hnd' Hin).
Qed.


(** What a field table writes under a name of its own, read off the
    source object. *)
Lemma take_field (x w : JVal) (ins : Instructions) (k : string) (i : Instruction) :
  take x ins = Return w -> NoDup ins.*1 -> (k, i) ∈ ins ->
  match present_member k x with
  | Some v => exists y, valueFn i v = Return y /\ prop k w = Some y
  | None => prop k w = None
  end.
Proof.
  unfold take. intros H Hnd Hin.
  destruct (take_into [] x ins) as [out|e] eqn:Hout; simpl in H; [|discriminate].
  injection H as <-.
  pose proof (take_into_field k i x ins _ _ Hout Hnd Hin) as Hf.
  unfold present_member, nonNullish. simpl.
  destruct (prop k x) as [v|]; [destruct (nonNull v)|]; exact Hf.
Qed.

Lemma take_outside (x w : JVal) (ins : Instructions) (k : string) :
  take x ins = Return w -> k ∉ ins.*1 -> prop k w = None.
Proof.
  unfold take. intros H Hk.
  destruct (take_into [] x ins) as [out|e] eqn:Hout; simpl in H; [|discriminate].
  injection H as <-. exact (take_into_other k x ins _ _ Hout Hk).
Qed.

Lemma name_has_rule (ins : Instructions) (k : string) :
  k ∈ ins.*1 -> exists i, (k, i) ∈ ins.
Proof.
  intros Hk. apply list_elem_of_fmap in Hk as ([k' i] & -> & Hin). now exists i.
Qed.



End TakeFacts.

(** ** The fields of an encoded record *)









Example se_ConversationState_unknown_tag :
  se_ConversationState Sample.context Sample.state_foo
  = Return (JObj [("conversationId", JStr "c-1");
                  ("currentMessage", JObj [("name", JNum 1)])])
  /\ se_ConversationState Sample.context Sample.state_bar
     = se_ConversationState Sample.context Sample.state_foo.
Proof. split; reflexivity. Qed.


(** ** Binary members, documents and unrecognized union members *)

(** Runs a visitor on a value whose member reads are given by hypotheses. *)
Ltac run_visit :=
  unfold visit, populated; simpl;
  repeat (progress (repeat match goal with
                           | H : prop _ _ = _ |- _ => rewrite H
                           end; simpl)).

(** C9.  The [bytes] member of an image source is written as the base64
    encoder's string for it; a document is encoded as itself, so the document
    members [input] of a tool use, [json] of a tool input schema and [json]
    of a tool result content block reach the wire unchanged. *)
Theorem bytes_base64_documents_untouched :
  forall (ctx : SerdeContext) (input value : JVal),
    (prop "bytes" input = Some value -> prop "$unknown" input = None ->
     se_ImageSource ctx input
     = Return (JObj [("bytes", JStr (base64Encoder ctx value))]))
    /\ se_SensitiveDocument value = value
    /\ (prop "input" input = Some value -> nonNull value = true ->
        exists w, se_ToolUse input = Return w /\ prop "input" w = Some value)
    /\ (prop "json" input = Some value -> nonNull value = true ->
        se_ToolInputSchema input = Return (JObj [("json", value)]))
    /\ (prop "json" input = Some value -> prop "text" input = None ->
        prop "$unknown" input = None ->
        se_ToolResultContentBlock input = Return (JObj [("json", value)])).
Proof.
  intros ctx input value. repeat split.
  - intros Hb Hu. unfold se_ImageSource. now run_visit.
  - intros Hi Hn. unfold se_ToolUse, take. simpl. unfold applyInstruction.
    rewrite Hi, Hn. simpl.
    destruct (prop "name" input) as [x|]; [destruct (nonNull x)|];
      (destruct (prop "toolUseId" input) as [z|]; [destruct (nonNull z)|]);
      simpl; eexists; split; reflexivity.
  - intros Hj Hn. unfold se_ToolInputSchema, take. simpl. unfold applyInstruction.
    now rewrite Hj, Hn.
  - intros Hj Ht Hu. unfold se_ToolResultContentBlock. now run_visit.
Qed.

Lemma bytes_base64_documents_untouched_witness :
  se_ImageSource Sample.context (JObj [("bytes", JBytes [Byte.x4d; Byte.x61])])
  = Return (JObj [("bytes", JStr "base64:2")]).
Proof.
  destruct (bytes_base64_documents_untouched Sample.context
              (JObj [("bytes", JBytes [Byte.x4d; Byte.x61])])
              (JBytes [Byte.x4d; Byte.x61])) as (Himage & _).
  exact (Himage eq_refl eq_refl).
Defined.

(** C10.  A union value whose populated member is the unrecognized one,
    holding a tag and a payload, is encoded by [se_ChatMessage],
    [se_ImageSource], [se_Tool] and [se_ToolResultContentBlock] as the object
    whose single member is called ["name"] and holds the payload, whatever
    the tag. *)
Theorem unknown_member_keyed_name :
  forall (ctx : SerdeContext) (input : JVal) (tag : string) (value : JVal),
    prop "$unknown" input = Some (JArr [JStr tag; value]) ->
    (prop "assistantResponseMessage" input = None ->
     prop "userInputMessage" input = None ->
     se_ChatMessage ctx input = Return (JObj [("name", value)]))
    /\ (prop "bytes" input = None ->
        se_ImageSource ctx input = Return (JObj [("name", value)]))
    /\ (prop "toolSpecification" input = None ->
        se_Tool input = Return (JObj [("name", value)]))
    /\ (prop "json" input = None -> prop "text" input = None ->
        se_ToolResultContentBlock input = Return (JObj [("name", value)])).
Proof.
  intros ctx input tag value Hu. repeat split.
  - intros Ha Hm. unfold se_ChatMessage. now run_visit.
  - intros Hb. unfold se_ImageSource. now run_visit.
  - intros Ht. unfold se_Tool. now run_visit.
  - intros Hj Ht. unfold se_ToolResultContentBlock. now run_visit.
Qed.

Lemma unknown_member_keyed_name_witness :
  se_ChatMessage Sample.context (JObj [("$unknown", JArr [JStr "foo"; JNum 1])])
  = Return (JObj [("name", JNum 1)])
  /\ se_Tool (JObj [("$unknown", JArr [JStr "foo"; JNum 1])])
     = Return (JObj [("name", JNum 1)]).
Proof.
  destruct (unknown_member_keyed_name Sample.context
              (JObj [("$unknown", JArr [JStr "foo"; JNum 1])]) "foo" (JNum 1)
              eq_refl) as (Hchat & _ & Htool & _).
  split; [exact (Hchat eq_refl eq_refl) | exact (Htool eq_refl)].
Defined.

(** ** The error dispatcher *)

Lemma is_case_false (errorCode : option string) (label : string) :
  errorCode <> Some label -> is_case errorCode label = false.
Proof.
  destruct errorCode as [c|]; simpl; [|reflexivity].
  intros Hne. apply String.eqb_neq. congruence.
Qed.

Lemma known_exceptions_complete (k : ExceptionCtor) : k ∈ known_exceptions.
Proof. apply list_elem_of_In. destruct k; simpl; tauto. Qed.

Lemma known_exceptions_NoDup : NoDup known_exceptions.
Proof.
  apply NoDup_ListNoDup. unfold known_exceptions.
  repeat constructor; simpl; intuition discriminate.
Qed.

Lemma exceptionRes_ctor (k : ExceptionCtor) (parsedOutput : Output JVal) :
  ex_ctor (exceptionRes k parsedOutput) = k
  /\ ex_additions (exceptionRes k parsedOutput) = body parsedOutput.
Proof. destruct k; split; reflexivity. Qed.

(** The [$metadata] passed to the constructor is that of the response
    unless the deserialized body has a member of that name. *)
Lemma exceptionRes_metadata (k : ExceptionCtor) (parsedOutput : Output JVal) :
  assoc "$metadata" (own_entries (_json (body parsedOutput))) = None ->
  carried_metadata (exceptionRes k parsedOutput)
  = Some (metadata_val (deserializeMetadata parsedOutput)).
Proof.
  intros Habs. unfold carried_metadata.
  destruct k; simpl; now rewrite (assoc_obj_spread_absent _ _ _ Habs).
Qed.

Section ErrorDispatch.

Variable parseBody : Body -> Result JVal.
Variable parseErrorBody : Body -> Result JVal.
Variable loadRestJsonErrorCode : Output Body -> JVal -> option string.
Variable __expectString : JVal -> Result JVal.
Variable frames : Body -> list (string * Message).

Local Abbreviation CommandError A :=
  (@de_CommandError parseErrorBody loadRestJsonErrorCode A).
Local Abbreviation SendMessageCommand :=
  (de_SendMessageCommand parseBody parseErrorBody loadRestJsonErrorCode
                         __expectString frames).
Local Abbreviation GenerateCodeFromCommandsCommand :=
  (de_GenerateCodeFromCommandsCommand parseBody parseErrorBody
                                      loadRestJsonErrorCode frames).

Lemma de_CommandError_named (A : Type) (output : Output Body) (b : JVal)
    (k : ExceptionCtor) :
  parseErrorBody (body output) = Return b ->
  names (loadRestJsonErrorCode output b) k ->
  CommandError A output
  = Throw (Service (exceptionRes k (with_body output b))).
Proof.
  intros Hp Hk. unfold de_CommandError. rewrite Hp. simpl.
  destruct Hk as [Hc|Hc]; rewrite Hc; destruct k; reflexivity.
Qed.

Lemma de_CommandError_default (A : Type) (output : Output Body) (b : JVal) :
  parseErrorBody (body output) = Return b ->
  (forall k, ~ names (loadRestJsonErrorCode output b) k) ->
  CommandError A output
  = Throw (DefaultError output b (loadRestJsonErrorCode output b)).
Proof.
  intros Hp Hno. unfold de_CommandError. rewrite Hp. simpl.
  repeat match goal with
         | |- context [is_case ?c ?l] =>
             rewrite (is_case_false c l)
               by (intros E;
                   first [ exact (Hno AccessDeniedException (or_introl E))
                         | exact (Hno AccessDeniedException (or_intror E))
                         | exact (Hno ConflictException (or_introl E))
                         | exact (Hno ConflictException (or_intror E))
                         | exact (Hno DryRunOperationException (or_introl E))
                         | exact (Hno DryRunOperationException (or_intror E))
                         | exact (Hno InternalServerException (or_introl E))
                         | exact (Hno InternalServerException (or_intror E))
                         | exact (Hno ResourceNotFoundException (or_introl E))
                         | exact (Hno ResourceNotFoundException (or_intror E))
                         | exact (Hno ServiceQuotaExceededException (or_introl E))
                         | exact (Hno ServiceQuotaExceededException (or_intror E))
                         | exact (Hno ThrottlingException (or_introl E))
                         | exact (Hno ThrottlingException (or_intror E))
                         | exact (Hno ValidationException (or_introl E))
                         | exact (Hno ValidationException (or_intror E)) ])
         end.
  reflexivity.
Qed.

Lemma de_CommandError_throws (A : Type) (output : Output Body) :
  exists e, CommandError A output = Throw e.
Proof.
  unfold de_CommandError.
  destruct (parseErrorBody (body output)) as [b|e]; simpl; [|now exists e].
  repeat match goal with
         | |- context [if ?c then _ else _] => destruct c
         end; eexists; reflexivity.
Qed.

Lemma status_routes (output : Output Body) (n : Z) :
  statusCode output = Some n -> 300 <= n ->
  SendMessageCommand output = CommandError _ output
  /\ GenerateCodeFromCommandsCommand output = CommandError _ output.
Proof.
  intros Hs Hn.
  unfold de_SendMessageCommand, de_GenerateCodeFromCommandsCommand, status_ge_300.
  rewrite Hs. replace (300 <=? n) with true by (symmetry; now apply Z.leb_le).
  split; reflexivity.
Qed.

Lemma names_decide (errorCode : option string) :
  (exists k, names errorCode k) \/ (forall k, ~ names errorCode k).
Proof.
  assert (Hdec : forall k, Decision (names errorCode k))
    by (intros k; unfold names; apply _).
  destruct (Hdec AccessDeniedException); [left; eauto|].
  destruct (Hdec ConflictException); [left; eauto|].
  destruct (Hdec DryRunOperationException); [left; eauto|].
  destruct (Hdec InternalServerException); [left; eauto|].
  destruct (Hdec ResourceNotFoundException); [left; eauto|].
  destruct (Hdec ServiceQuotaExceededException); [left; eauto|].
  destruct (Hdec ThrottlingException); [left; eauto|].
  destruct (Hdec ValidationException); [left; eauto|].
  right. intros k. destruct k; assumption.
Qed.

(** C3 (as amended).  The error dispatcher knows eight exceptions: a code
    makes it fail with a named exception exactly when it is the bare or
    the qualified name of one of the eight, and with that one; every other
    code makes it fail with the default error. *)
Theorem eight_named_exceptions (A : Type) (output : Output Body) (b : JVal) :
  parseErrorBody (body output) = Return b ->
  let errorCode := loadRestJsonErrorCode output b in
  length known_exceptions = 8%nat
  /\ NoDup known_exceptions
  /\ (forall k, k ∈ known_exceptions
                /\ (names errorCode k <->
                    exists e, CommandError A output = Throw (Service e)
                              /\ ex_ctor e = k))
  /\ ((forall k, ~ names errorCode k) ->
      CommandError A output = Throw (DefaultError output b errorCode)).
Proof.
  intros Hp errorCode. split; [reflexivity|].
  split; [exact known_exceptions_NoDup|]. split.
  - intros k. split; [apply known_exceptions_complete|]. split.
    + intros Hk. exists (exceptionRes k (with_body output b)).
      split; [now apply de_CommandError_named|].
      apply exceptionRes_ctor.
    + intros (e & He & Hc).
      destruct (names_decide errorCode) as [[k' Hk']|Hno].
      * rewrite (de_CommandError_named A output b k' Hp Hk') in He.
        injection He as <-.
        destruct (exceptionRes_ctor k' (with_body output b)) as [Hc' _].
        congruence.
      * rewrite (de_CommandError_default A output b Hp Hno) in He. discriminate.
  - intros Hno. now apply de_CommandError_default.
Qed.

End ErrorDispatch.

Lemma eight_named_exceptions_witness :
  names (Sample.errorCode Sample.throttled_response
           (JObj [("__type", JStr "ThrottlingException");
                  ("message", JStr "slow down")])) ThrottlingException
  <-> exists e,
        de_CommandError Sample.parse Sample.errorCode (A := unit)
          Sample.throttled_response = Throw (Service e)
        /\ ex_ctor e = ThrottlingException.
Proof.
  destruct (eight_named_exceptions Sample.parse Sample.errorCode unit
              Sample.throttled_response _ eq_refl) as (_ & _ & H & _).
  exact (proj2 (H ThrottlingException)).
Defined.

(** The comparison is exact: a code in another letter case is not known. *)
Example error_code_case_sensitive :
  de_CommandError Sample.parse Sample.errorCode (A := unit)
    (Sample.error_response "validationexception")
  = Throw (DefaultError (Sample.error_response "validationexception")
             (JObj [("content", JStr "hello")]) (Some "validationexception"))
  /\ exists e,
       de_CommandError Sample.parse Sample.errorCode (A := unit)
         (Sample.error_response "ValidationException") = Throw (Service e)
       /\ ex_ctor e = ValidationException.
Proof. split; [reflexivity|]. eexists. split; reflexivity. Qed.

(** ** The error dispatcher with the error code of the library *)

Lemma hasHash_bare_name (k : ExceptionCtor) :
  AwsSdkCore.hasHash (bare_name k) = false.
Proof. destruct k; reflexivity. Qed.

Lemma stripNamespace_bare (code : string) :
  AwsSdkCore.hasHash code = false -> AwsSdkCore.stripNamespace code = code.
Proof.
  destruct code as [|c rest]; [reflexivity|]. simpl.
  destruct (Ascii.eqb c "#"); simpl; [discriminate|]. now intros ->.
Qed.

Lemma hasHash_qualified (ns name : string) :
  AwsSdkCore.hasHash (String.append ns (String "#" name)) = true.
Proof.
  induction ns as [|c ns IH]; simpl; [reflexivity|].
  rewrite IH. apply orb_true_r.
Qed.

(** The namespace of a qualified code is stripped, whatever it is. *)
Lemma stripNamespace_qualified (ns name : string) :
  AwsSdkCore.hasHash name = false ->
  AwsSdkCore.stripNamespace (String.append ns (String "#" name)) = name.
Proof.
  intros Hname. induction ns as [|c ns IH]; simpl.
  - now rewrite Hname.
  - now rewrite hasHash_qualified.
Qed.

Lemma exceptionRes_body_metadata (k : ExceptionCtor) (parsedOutput : Output JVal)
    (m : JVal) :
  NoDup (own_entries (_json (body parsedOutput))).*1 ->
  assoc "$metadata" (own_entries (_json (body parsedOutput))) = Some m ->
  carried_metadata (exceptionRes k parsedOutput) = Some m.
Proof.
  intros Hnd Hm. unfold carried_metadata.
  destruct k; simpl; now rewrite (assoc_obj_spread _ _ _ Hnd), Hm.
Qed.

Section ErrorResponses.

Variable errorHeader : string.
Variable parseBody : Body -> Result JVal.
Variable parseErrorBody : Body -> Result JVal.
Variable __expectString : JVal -> Result JVal.
Variable frames : Body -> list (string * Message).

Local Abbreviation loadRestJsonErrorCode :=
  (AwsSdkCore.loadRestJsonErrorCode errorHeader).
Local Abbreviation CommandError A :=
  (@de_CommandError parseErrorBody loadRestJsonErrorCode A).
Local Abbreviation SendMessageCommand :=
  (de_SendMessageCommand parseBody parseErrorBody loadRestJsonErrorCode
                         __expectString frames).
Local Abbreviation GenerateCodeFromCommandsCommand :=
  (de_GenerateCodeFromCommandsCommand parseBody parseErrorBody
                                      loadRestJsonErrorCode frames).

(** C1 (as amended).  A response whose status code is at least 300 is
    handed to the error dispatcher by both operations and never returns
    normally.  The wire error code, read from the header that names it or
    else from [__type] of the parsed body, is normalized: the bare name of a
    known exception and that name behind any namespace, up to the last [#],
    give the same code, which names the exception.  When the normalized
    code is the bare or the qualified name of a known exception, compared
    exactly, the call fails with the exception of that constructor,
    decorated with the parsed body; the exception carries the metadata of
    the response unless the deserialized body has a [$metadata] member of
    its own, which then takes its place.  When the code is the name of no
    known exception, the call fails with the default error holding the
    response, the parsed body and the code. *)
Theorem error_response_dispatch (output : Output Body) (n : Z) :
  statusCode output = Some n -> 300 <= n ->
  SendMessageCommand output = CommandError _ output
  /\ GenerateCodeFromCommandsCommand output = CommandError _ output
  /\ (forall r, SendMessageCommand output <> Return r)
  /\ (forall r, GenerateCodeFromCommandsCommand output <> Return r)
  /\ forall b, parseErrorBody (body output) = Return b ->
       let wireCode := AwsSdkCore.wireErrorCode errorHeader output b in
       let errorCode := loadRestJsonErrorCode output b in
       (forall k ns,
          wireCode = Some (bare_name k)
          \/ wireCode = Some (String.append ns (String "#" (bare_name k))) ->
          errorCode = Some (bare_name k) /\ names errorCode k)
       /\ (forall k, names errorCode k ->
             exists e,
               SendMessageCommand output = Throw (Service e)
               /\ GenerateCodeFromCommandsCommand output = Throw (Service e)
               /\ ex_ctor e = k
               /\ ex_additions e = b
               /\ (assoc "$metadata" (own_entries (_json b)) = None ->
                   carried_metadata e
                   = Some (metadata_val (deserializeMetadata output)))
               /\ (forall m, NoDup (own_entries (_json b)).*1 ->
                             assoc "$metadata" (own_entries (_json b)) = Some m ->
                             carried_metadata e = Some m))
       /\ ((forall k, ~ names errorCode k) ->
             SendMessageCommand output = Throw (DefaultError output b errorCode)
             /\ GenerateCodeFromCommandsCommand output
                = Throw (DefaultError output b errorCode)).
Proof.
  intros Hs Hn.
  destruct (status_routes parseBody parseErrorBody loadRestJsonErrorCode
              __expectString frames output n Hs Hn) as [Hsend Hgen].
  split; [exact Hsend|]. split; [exact Hgen|].
  rewrite Hsend, Hgen. split; [|split].
  - intros r. destruct (de_CommandError_throws parseErrorBody loadRestJsonErrorCode
                          (CommandOutput ChatResponseStream.t) output) as [e ->].
    discriminate.
  - intros r. destruct (de_CommandError_throws parseErrorBody loadRestJsonErrorCode
                          (CommandOutput GenerateCodeFromCommandsResponseStream.t)
                          output) as [e ->].
    discriminate.
  - intros b Hp wireCode errorCode. split; [|split].
    + intros k ns Hwire.
      assert (Hcode : errorCode = Some (bare_name k)).
      { unfold errorCode, AwsSdkCore.loadRestJsonErrorCode.
        fold wireCode. destruct Hwire as [-> | ->]; f_equal.
        - apply stripNamespace_bare, hasHash_bare_name.
        - apply stripNamespace_qualified, hasHash_bare_name. }
      split; [exact Hcode | left; exact Hcode].
    + intros k Hk. exists (exceptionRes k (with_body output b)).
      rewrite !(de_CommandError_named parseErrorBody loadRestJsonErrorCode
                  _ output b k Hp Hk).
      destruct (exceptionRes_ctor k (with_body output b)) as [Hc Ha].
      split; [reflexivity|]. split; [reflexivity|].
      split; [exact Hc|]. split; [exact Ha|]. split.
      * intros Habs. exact (exceptionRes_metadata k (with_body output b) Habs).
      * intros m Hnd Hm.
        exact (exceptionRes_body_metadata k (with_body output b) m Hnd Hm).
    + intros Hno.
      now rewrite !(de_CommandError_default parseErrorBody loadRestJsonErrorCode
                      _ output b Hp Hno).
Qed.

End ErrorResponses.

(** The response that names its error [com.example.service#ValidationException]
    in the header fails with the validation exception, which carries the
    metadata of the response. *)
Lemma error_response_dispatch_witness :
  exists e,
    de_SendMessageCommand Sample.parse Sample.parse
      (AwsSdkCore.loadRestJsonErrorCode "x-amzn-errortype")
      Sample.expectString Sample.frames
      (Sample.error_response "com.example.service#ValidationException")
    = Throw (Service e)
    /\ ex_ctor e = ValidationException
    /\ carried_metadata e
       = Some (metadata_val
                 (deserializeMetadata
                    (Sample.error_response
                       "com.example.service#ValidationException"))).
Proof.
  destruct (error_response_dispatch "x-amzn-errortype" Sample.parse Sample.parse
              Sample.expectString Sample.frames
              (Sample.error_response "com.example.service#ValidationException")
              400 eq_refl ltac:(lia)) as (_ & _ & _ & _ & H).
  destruct (H _ eq_refl) as (Hnormal & Hnamed & _).
  destruct (Hnormal ValidationException "com.example.service"
              (or_intror eq_refl)) as [_ Hk].
  destruct (Hnamed ValidationException Hk) as (e & Hsend & _ & Hc & _ & Hm & _).
  exists e. split; [exact Hsend|]. split; [exact Hc|]. exact (Hm eq_refl).
Defined.

(** The normalized code is compared exactly: the qualified name of the
    service and a name behind another namespace are known, a name in another
    letter case is not. *)
Example error_code_normalized :
  (exists e,
     de_CommandError Sample.parse
       (AwsSdkCore.loadRestJsonErrorCode "x-amzn-errortype") (A := unit)
       (Sample.error_response "com.amazon.aws.codewhisperer#ThrottlingException")
     = Throw (Service e)
     /\ ex_ctor e = ThrottlingException)
  /\ AwsSdkCore.stripNamespace "a#b#ConflictException" = "ConflictException"
  /\ de_CommandError Sample.parse
       (AwsSdkCore.loadRestJsonErrorCode "x-amzn-errortype") (A := unit)
       (Sample.error_response "com.example.service#validationexception")
     = Throw (DefaultError
                (Sample.error_response "com.example.service#validationexception")
                (JObj [("content", JStr "hello")]) (Some "validationexception")).
Proof.
  split; [eexists; split; reflexivity|]. split; reflexivity.
Qed.

(** C1 (as stated) fails: the sample response with status 400 whose body
    has a [$metadata] member fails with the named exception, but the
    exception is constructed with the body's member and not with the
    metadata of the response. *)
Lemma response_metadata_overridden :
  exists e,
    de_SendMessageCommand Sample.parse Sample.parse
      (AwsSdkCore.loadRestJsonErrorCode "x-amzn-errortype")
      Sample.expectString Sample.frames Sample.spoofed_response
    = Throw (Service e)
    /\ ex_ctor e = ValidationException
    /\ carried_metadata e = Some (JObj [("httpStatusCode", JNum 200)])
    /\ carried_metadata e
       <> Some (metadata_val (deserializeMetadata Sample.spoofed_response)).
Proof.
  eexists. split; [reflexivity|]. split; [reflexivity|].
  split; [reflexivity|]. discriminate.
Qed.

(** C3 (as stated) fails: no seven exceptions cover what the dispatcher
    throws. *)
Lemma seven_exceptions_do_not_cover :
  ~ exists kinds : list ExceptionCtor,
      length kinds = 7%nat
      /\ forall output e,
           de_CommandError Sample.parse Sample.errorCode (A := unit) output
           = Throw (Service e) ->
           ex_ctor e ∈ kinds.
Proof.
  intros (kinds & Hlen & Hcover).
  assert (Hall : forall k, k ∈ known_exceptions -> k ∈ kinds).
  { intros k _.
    rewrite <- (proj1 (exceptionRes_ctor k
                         (with_body (Sample.error_response (bare_name k))
                                    (JObj [("content", JStr "hello")])))).
    apply (Hcover (Sample.error_response (bare_name k))).
    destruct k; reflexivity. }
  pose proof (submseteq_length _ _
                (NoDup_submseteq _ _ known_exceptions_NoDup Hall)) as Hle.
  rewrite Hlen in Hle. simpl in Hle. lia.
Qed.

(** ** Event streams *)

(** The event object of a frame. *)
Lemma frame_member (eventName key : string) (m : Message) :
  eventName <> key -> ({[ eventName := m ]} : EventObject) !! key = None.
Proof. intros Hne. now apply lookup_singleton_ne. Qed.

(** Frames before a reserved error-event frame are yielded in order, the
    decoded error frame is yielded last, and the frames after it play no
    part. *)
Lemma deserialize_frames_until_error (T : Type) (errorNames : list string)
    (deserializer : EventObject -> Result T)
    (pre post : list (string * Message)) (eventName : string) (m : Message)
    (items : list T) (item : T) :
  eventName ∈ errorNames ->
  Forall (fun f => f.1 ∉ errorNames) pre ->
  Forall2 (fun f i => deserializer {[ f.1 := f.2 ]} = Return i) pre items ->
  deserializer {[ eventName := m ]} = Return item ->
  deserialize_frames errorNames deserializer (pre ++ (eventName, m) :: post)%list
  = ((items ++ [item])%list, ErrorEvent).
Proof.
  intros Herr Hpre Hitems Hitem. revert Hpre.
  induction Hitems as [|[name msg] i pre items Hi _ IH]; intros Hpre; simpl.
  - rewrite Hitem. now rewrite bool_decide_eq_true_2.
  - apply Forall_cons in Hpre as [Hname Hpre]. simpl in Hi, Hname.
    rewrite Hi. rewrite bool_decide_eq_false_2 by exact Hname.
    now rewrite (IH Hpre).
Qed.

(** A frame that is not a reserved error-event frame is followed by the
    rest of the stream. *)
Lemma deserialize_frames_continue (T : Type) (errorNames : list string)
    (deserializer : EventObject -> Result T)
    (rest : list (string * Message)) (eventName : string) (m : Message) (item : T) :
  eventName ∉ errorNames ->
  deserializer {[ eventName := m ]} = Return item ->
  deserialize_frames errorNames deserializer ((eventName, m) :: rest)
  = (item :: (deserialize_frames errorNames deserializer rest).1,
     (deserialize_frames errorNames deserializer rest).2).
Proof.
  intros Hname Hitem. simpl. rewrite Hitem.
  rewrite bool_decide_eq_false_2 by exact Hname.
  now destruct (deserialize_frames errorNames deserializer rest).
Qed.

Section EventStreams.

Variable parseBody : Body -> Result JVal.
Variable __expectString : JVal -> Result JVal.
Variable frames : Body -> list (string * Message).

Local Abbreviation ChatDeserializer :=
  (de_ChatResponseStream_deserializer parseBody __expectString).
Local Abbreviation GenerateCodeDeserializer :=
  (de_GenerateCodeFromCommandsResponseStream_deserializer parseBody).

Lemma ChatResponseStream_unknown (output : Body) (eventName : string) (m : Message) :
  eventName ∉ ChatResponseStream_names ->
  ChatDeserializer output {[ eventName := m ]}
  = Return (ChatResponseStream.unknown output).
Proof using Type.
  clear frames.
  intros Hname. unfold de_ChatResponseStream_deserializer, if_member.
  rewrite !frame_member; [reflexivity|..];
    intros ->; apply Hname; apply list_elem_of_In; simpl; tauto.
Qed.

Lemma GenerateCodeFromCommandsResponseStream_unknown (output : Body)
    (eventName : string) (m : Message) :
  eventName ∉ GenerateCodeFromCommandsResponseStream_names ->
  GenerateCodeDeserializer output {[ eventName := m ]}
  = Return (GenerateCodeFromCommandsResponseStream.unknown output).
Proof using Type.
  clear frames. intros Hname.
  unfold de_GenerateCodeFromCommandsResponseStream_deserializer, if_member.
  rewrite !frame_member; [reflexivity|..];
    intros ->; apply Hname; apply list_elem_of_In; simpl; tauto.
Qed.

Lemma ChatResponseStream_error (output : Body) (m : Message) :
  ChatDeserializer output {[ "error" := m ]}
  = let* r := de_InternalServerException_event parseBody m in
    Return (ChatResponseStream.error r).
Proof using Type.
  unfold de_ChatResponseStream_deserializer, if_member.
  rewrite !frame_member by discriminate.
  now rewrite lookup_singleton_eq.
Qed.

(** C2 (as amended).  An in-stream error event is decoded without any
    code matching: the event name alone selects the exception ([error] and
    [Error] give the internal server exception, [QuotaLevelExceededError]
    the service quota exception, [ValidationError] the validation
    exception), whatever code the payload [b] names; the exception is
    returned as the member of that name of the event union, not thrown. *)
Theorem in_stream_error_by_event_name (output : Body) (m : Message) (b : JVal) :
  parseBody (body m) = Return b ->
  let parsedOutput := with_body m b in
  ChatDeserializer output {[ "error" := m ]}
  = Return (ChatResponseStream.error (de_InternalServerExceptionRes parsedOutput))
  /\ GenerateCodeDeserializer output {[ "Error" := m ]}
     = Return (GenerateCodeFromCommandsResponseStream.Error
                 (de_InternalServerExceptionRes parsedOutput))
  /\ GenerateCodeDeserializer output {[ "QuotaLevelExceededError" := m ]}
     = Return (GenerateCodeFromCommandsResponseStream.QuotaLevelExceededError
                 (de_ServiceQuotaExceededExceptionRes parsedOutput))
  /\ GenerateCodeDeserializer output {[ "ValidationError" := m ]}
     = Return (GenerateCodeFromCommandsResponseStream.ValidationError
                 (de_ValidationExceptionRes parsedOutput))
  /\ ex_ctor (de_InternalServerExceptionRes parsedOutput) = InternalServerException
  /\ ex_ctor (de_ServiceQuotaExceededExceptionRes parsedOutput)
     = ServiceQuotaExceededException
  /\ ex_ctor (de_ValidationExceptionRes parsedOutput) = ValidationException.
Proof using Type.
  intros Hp parsedOutput. split; [|split; [|split; [|split]]].
  - rewrite ChatResponseStream_error.
    unfold de_InternalServerException_event. now rewrite Hp.
  - unfold de_GenerateCodeFromCommandsResponseStream_deserializer, if_member.
    rewrite !frame_member by discriminate. rewrite lookup_singleton_eq.
    unfold de_InternalServerException_event. now rewrite Hp.
  - unfold de_GenerateCodeFromCommandsResponseStream_deserializer, if_member.
    rewrite !frame_member by discriminate. rewrite lookup_singleton_eq.
    unfold de_ServiceQuotaExceededException_event. now rewrite Hp.
  - unfold de_GenerateCodeFromCommandsResponseStream_deserializer, if_member.
    rewrite !frame_member by discriminate. rewrite lookup_singleton_eq.
    unfold de_ValidationException_event. now rewrite Hp.
  - repeat split.
Qed.

(** C4 (as amended).  For a frame whose event name is not in the decode
    table, the reserved error-event names included, the callback returns
    the unrecognized member holding the response body that the stream
    deserializer was called with, not the frame, and the frames after it
    are still deserialized. *)
Theorem unrecognized_event_holds_body (output : Body) (eventName : string)
    (m : Message) (rest : list (string * Message)) :
  (eventName ∉ ChatResponseStream_names ->
   ChatDeserializer output {[ eventName := m ]}
   = Return (ChatResponseStream.unknown output)
   /\ deserialize_frames ["error"] (ChatDeserializer output) ((eventName, m) :: rest)
      = (ChatResponseStream.unknown output
           :: (deserialize_frames ["error"] (ChatDeserializer output) rest).1,
         (deserialize_frames ["error"] (ChatDeserializer output) rest).2))
  /\ (eventName ∉ GenerateCodeFromCommandsResponseStream_names ->
      GenerateCodeDeserializer output {[ eventName := m ]}
      = Return (GenerateCodeFromCommandsResponseStream.unknown output)
      /\ deserialize_frames ["Error"; "QuotaLevelExceededError"; "ValidationError"]
           (GenerateCodeDeserializer output) ((eventName, m) :: rest)
         = (GenerateCodeFromCommandsResponseStream.unknown output
              :: (deserialize_frames
                    ["Error"; "QuotaLevelExceededError"; "ValidationError"]
                    (GenerateCodeDeserializer output) rest).1,
            (deserialize_frames
               ["Error"; "QuotaLevelExceededError"; "ValidationError"]
               (GenerateCodeDeserializer output) rest).2)).
Proof using Type.
  clear frames. split; intros Hname.
  - pose proof (ChatResponseStream_unknown output eventName m Hname) as Hu.
    split; [exact Hu|].
    apply deserialize_frames_continue; [|exact Hu].
    intros Hin. apply Hname.
    apply list_elem_of_singleton in Hin as ->.
    apply list_elem_of_In. simpl. tauto.
  - pose proof (GenerateCodeFromCommandsResponseStream_unknown
                  output eventName m Hname) as Hu.
    split; [exact Hu|].
    apply deserialize_frames_continue; [|exact Hu].
    intros Hin. apply Hname.
    apply list_elem_of_In in Hin. apply list_elem_of_In. simpl in *. tauto.
Qed.

(** C5.  When the frames of a response body contain an [error] frame,
    the stream yields the decoded frames that precede the first such
    frame, then the decoded error as its last item, and ends there: the
    frames after it play no part in the result. *)
Theorem stream_ends_at_error (output : Body) (pre post : list (string * Message))
    (m : Message) (b : JVal) (items : list ChatResponseStream.t) :
  frames output = (pre ++ ("error", m) :: post)%list ->
  Forall (fun f => f.1 <> "error") pre ->
  Forall2 (fun f i => ChatDeserializer output {[ f.1 := f.2 ]} = Return i)
          pre items ->
  parseBody (body m) = Return b ->
  de_ChatResponseStream parseBody __expectString frames output
  = ((items ++ [ChatResponseStream.error
                  (de_InternalServerExceptionRes (with_body m b))])%list,
     ErrorEvent).
Proof.
  intros Hframes Hpre Hitems Hp. unfold de_ChatResponseStream. rewrite Hframes.
  apply deserialize_frames_until_error.
  - apply list_elem_of_here.
  - eapply Forall_impl; [exact Hpre|].
    intros f Hf Hin. apply Hf. now apply list_elem_of_singleton in Hin.
  - exact Hitems.
  - rewrite ChatResponseStream_error.
    unfold de_InternalServerException_event. now rewrite Hp.
Qed.

End EventStreams.

(** The sample error frame names [ThrottlingException] in its payload and is
    decoded as an internal server exception. *)
Lemma in_stream_error_by_event_name_witness :
  exists e,
    de_ChatResponseStream_deserializer Sample.parse Sample.expectString
      Sample.stream_body {[ "error" := Sample.message Sample.payload_throttled ]}
    = Return (ChatResponseStream.error e)
    /\ ex_ctor e = InternalServerException
    /\ prop "__type" (ex_additions e) = Some (JStr "ThrottlingException").
Proof.
  destruct (in_stream_error_by_event_name Sample.parse Sample.expectString
              Sample.stream_body (Sample.message Sample.payload_throttled) _ eq_refl)
    as (Hchat & _ & _ & _ & Hctor & _).
  eexists. split; [exact Hchat|]. split; [exact Hctor | reflexivity].
Defined.

(** C2 (as stated) fails: on the sample error frame, whose payload names
    [ThrottlingException], the error dispatcher fails with the throttling
    exception while the stream callback returns an internal server
    exception. *)
Lemma in_stream_error_ignores_code :
  exists top inStream,
    de_CommandError Sample.parse Sample.errorCode (A := unit)
      (Sample.message Sample.payload_throttled) = Throw (Service top)
    /\ de_ChatResponseStream_deserializer Sample.parse Sample.expectString
         Sample.stream_body {[ "error" := Sample.message Sample.payload_throttled ]}
       = Return (ChatResponseStream.error inStream)
    /\ ex_ctor top = ThrottlingException
    /\ ex_ctor inStream = InternalServerException
    /\ ex_ctor inStream <> ex_ctor top.
Proof.
  do 2 eexists. split; [reflexivity|]. split; [reflexivity|].
  split; [reflexivity|]. split; [reflexivity|]. discriminate.
Qed.

Lemma unrecognized_event_holds_body_witness :
  de_ChatResponseStream Sample.parse Sample.expectString Sample.frames [Byte.x11]
  = ([ ChatResponseStream.messageMetadataEvent (JObj [("conversationId", JStr "c-1")]);
       ChatResponseStream.unknown [Byte.x11];
       ChatResponseStream.assistantResponseEvent (JObj [("content", JStr "hello")]) ],
     EndOfStream).
Proof.
  destruct (unrecognized_event_holds_body Sample.parse Sample.expectString
              [Byte.x11] "futureEventName" (Sample.message Sample.payload_text)
              [Sample.textEvent]) as [Hchat _].
  assert (Hname : "futureEventName" ∉ ChatResponseStream_names).
  { intros Hin. apply list_elem_of_In in Hin. simpl in Hin.
    repeat (destruct Hin as [Hin|Hin]; [discriminate Hin|]). exact Hin. }
  destruct (Hchat Hname) as [_ Hrest].
  unfold de_ChatResponseStream.
  change (Sample.frames [Byte.x11])
    with [Sample.metadataEvent;
          ("futureEventName", Sample.message Sample.payload_text);
          Sample.textEvent].
  rewrite (deserialize_frames_continue _ ["error"] _ _ "messageMetadataEvent"
             (Sample.message Sample.payload_metadata)
             (ChatResponseStream.messageMetadataEvent
                (JObj [("conversationId", JStr "c-1")])));
    [|intros Hin; apply list_elem_of_singleton in Hin; discriminate Hin
     |reflexivity].
  rewrite Hrest. reflexivity.
Defined.

(** C4 (as stated) fails: the unrecognized member does not carry the frame.
    Two different unrecognized frames of one response give the same member,
    so that no function recovers the frame from it. *)
Lemma unrecognized_event_drops_frame :
  ~ exists carried : ChatResponseStream.t -> option (string * Message),
      forall (output : Body) (eventName : string) (m : Message),
        eventName ∉ ChatResponseStream_names ->
        exists item,
          de_ChatResponseStream_deserializer Sample.parse Sample.expectString
            output {[ eventName := m ]} = Return item
          /\ carried item = Some (eventName, m).
Proof.
  intros [carried Hcarried].
  assert (Hname : "futureEventName" ∉ ChatResponseStream_names).
  { intros Hin. apply list_elem_of_In in Hin. simpl in Hin.
    repeat (destruct Hin as [Hin|Hin]; [discriminate Hin|]). exact Hin. }
  destruct (Hcarried Sample.stream_body "futureEventName"
              (Sample.message Sample.payload_text) Hname) as (i1 & H1 & C1).
  destruct (Hcarried Sample.stream_body "futureEventName"
              (Sample.message Sample.payload_metadata) Hname) as (i2 & H2 & C2).
  rewrite ChatResponseStream_unknown in H1, H2 by exact Hname.
  injection H1 as <-. injection H2 as <-.
  rewrite C1 in C2. discriminate C2.
Qed.

(** The frame sequence of section 8: metadata, text, error, text. *)
Lemma stream_ends_at_error_witness :
  de_ChatResponseStream Sample.parse Sample.expectString Sample.frames
    Sample.stream_body
  = ([ ChatResponseStream.messageMetadataEvent (JObj [("conversationId", JStr "c-1")]);
       ChatResponseStream.assistantResponseEvent (JObj [("content", JStr "hello")]);
       ChatResponseStream.error
         (de_InternalServerExceptionRes
            (with_body (Sample.message Sample.payload_throttled)
               (JObj [("__type", JStr "ThrottlingException");
                      ("message", JStr "slow down")]))) ],
     ErrorEvent).
Proof.
  apply (stream_ends_at_error Sample.parse Sample.expectString Sample.frames
           Sample.stream_body [Sample.metadataEvent; Sample.textEvent]
           [Sample.textEvent2] (Sample.message Sample.payload_throttled)
           (JObj [("__type", JStr "ThrottlingException");
                  ("message", JStr "slow down")])
           [ ChatResponseStream.messageMetadataEvent
               (JObj [("conversationId", JStr "c-1")]);
             ChatResponseStream.assistantResponseEvent
               (JObj [("content", JStr "hello")]) ]).
  - reflexivity.
  - repeat constructor; discriminate.
  - repeat constructor.
  - reflexivity.
Defined.

(** * Further properties of the protocol functions *)

(** ** The command serializers *)

Lemma slice_final_slash (p : string) :
  JsString.endsWith p "/" = true -> JsString.slice p 0 (-1) ++ "/" = p.
Proof.
  intros H. apply endsWith_inv in H as [b ->]. now rewrite slice_drop_last.
Qed.

Lemma command_request (ctx : SerdeContext) (operation body : string) :
  let r := buildHttpRpcRequest (endpoint ctx) (sharedHeaders operation) "/" None
             (Some body) in
  req_method r = "POST"
  /\ req_hostname r = ep_hostname (endpoint ctx)
  /\ req_protocol r = default "https" (ep_protocol (endpoint ctx))
  /\ req_port r = ep_port (endpoint ctx)
  /\ req_path r = with_final_slash (ep_path (endpoint ctx))
  /\ req_headers r !! "content-type" = Some "application/x-amz-json-1.0"
  /\ req_headers r !! "x-amz-target"
     = Some ("AmazonQDeveloperStreamingService." ++ operation)
  /\ size (req_headers r) = 2%nat
  /\ req_body r = Some body.
Proof.
  simpl. repeat split.
  unfold with_final_slash.
  destruct (JsString.endsWith (ep_path (endpoint ctx)) "/") eqn:E; [|reflexivity].
  now apply slice_final_slash.
Qed.

(** X1.  Both command serializers build a POST request to the endpoint's
    host, protocol ([https] when the endpoint names none) and port, whose
    path is the endpoint's base path with a final ["/"] ensured, whose
    headers are the content type and the [x-amz-target] of the operation and
    nothing else, and whose body is the JSON text of the serialized input.
    [se_GenerateCodeFromCommandsCommand] always builds a request;
    [se_SendMessageCommand] builds one exactly when [se_SendMessageRequest]
    succeeds and fails as it does otherwise. *)
Theorem command_serializers_envelope :
  forall (ctx : SerdeContext) (stringify : JVal -> string) (input : JVal),
    let envelope (operation : string) (text : string) (r : HttpRequest) :=
      req_method r = "POST"
      /\ req_hostname r = ep_hostname (endpoint ctx)
      /\ req_protocol r = default "https" (ep_protocol (endpoint ctx))
      /\ req_port r = ep_port (endpoint ctx)
      /\ req_path r = with_final_slash (ep_path (endpoint ctx))
      /\ req_headers r !! "content-type" = Some "application/x-amz-json-1.0"
      /\ req_headers r !! "x-amz-target"
         = Some ("AmazonQDeveloperStreamingService." ++ operation)
      /\ size (req_headers r) = 2%nat
      /\ req_body r = Some text in
    (exists r, se_GenerateCodeFromCommandsCommand ctx stringify input = Return r
               /\ envelope "GenerateCodeFromCommands" (stringify (_json input)) r)
    /\ (forall wire, se_SendMessageRequest ctx input = Return wire ->
          exists r, se_SendMessageCommand ctx stringify input = Return r
                    /\ envelope "SendMessage" (stringify wire) r)
    /\ (forall e, se_SendMessageRequest ctx input = Throw e ->
          se_SendMessageCommand ctx stringify input = Throw e).
Proof.
  intros ctx stringify input envelope. split; [|split].
  - eexists. split; [reflexivity|].
    apply (command_request ctx "GenerateCodeFromCommands").
  - intros wire Hw. unfold se_SendMessageCommand. rewrite Hw. simpl.
    eexists. split; [reflexivity|]. apply (command_request ctx "SendMessage").
  - intros e He. unfold se_SendMessageCommand. now rewrite He.
Qed.

Lemma command_serializers_envelope_witness :
  exists r,
    se_SendMessageCommand Sample.context (fun _ => "{}") Sample.state_foo = Return r
    /\ req_path r = "/v1/"
    /\ req_headers r !! "x-amz-target"
       = Some "AmazonQDeveloperStreamingService.SendMessage".
Proof.
  destruct (command_serializers_envelope Sample.context (fun _ => "{}")
              Sample.state_foo) as (_ & Hsend & _).
  destruct (Hsend _ eq_refl) as (r & Hr & _ & _ & _ & _ & Hpath & _ & Htarget & _).
  exists r. split; [exact Hr|]. split; [exact Hpath | exact Htarget].
Defined.

(** ** The command deserializers *)

Section CommandResults.

Variable parseBody : Body -> Result JVal.
Variable parseErrorBody : Body -> Result JVal.
Variable loadRestJsonErrorCode : Output Body -> JVal -> option string.
Variable __expectString : JVal -> Result JVal.
Variable frames : Body -> list (string * Message).

Local Abbreviation SendMessageCommand :=
  (de_SendMessageCommand parseBody parseErrorBody loadRestJsonErrorCode
                         __expectString frames).
Local Abbreviation GenerateCodeFromCommandsCommand :=
  (de_GenerateCodeFromCommandsCommand parseBody parseErrorBody
                                      loadRestJsonErrorCode frames).

Lemma status_ge_300_false (output : Output Body) :
  status_ge_300 output = false <-> (forall n, statusCode output = Some n -> n < 300).
Proof.
  unfold status_ge_300. destruct (statusCode output) as [n|].
  - rewrite Z.leb_gt. split.
    + intros Hn m Hm. injection Hm as <-. exact Hn.
    + intros H. now apply H.
  - split; [intros _ n Hn; discriminate Hn | reflexivity].
Qed.

(** X2.  A command deserializer returns normally exactly when the status
    code of the response is below 300 or missing.  It then returns the
    metadata of the response and the event stream of its body, whatever the
    body holds: an event that cannot be decoded ends the stream and does not
    make the call fail. *)
Theorem command_returns_below_300 (output : Output Body) :
  ((exists r, SendMessageCommand output = Return r)
   <-> (forall n, statusCode output = Some n -> n < 300))
  /\ ((exists r, GenerateCodeFromCommandsCommand output = Return r)
      <-> (forall n, statusCode output = Some n -> n < 300))
  /\ (forall r, SendMessageCommand output = Return r ->
        metadata r = deserializeMetadata output
        /\ responseStream r
           = de_ChatResponseStream parseBody __expectString frames (body output))
  /\ (forall r, GenerateCodeFromCommandsCommand output = Return r ->
        metadata r = deserializeMetadata output
        /\ responseStream r
           = de_GenerateCodeFromCommandsResponseStream parseBody frames (body output)).
Proof.
  rewrite <- status_ge_300_false.
  unfold de_SendMessageCommand, de_GenerateCodeFromCommandsCommand.
  destruct (status_ge_300 output).
  - destruct (de_CommandError_throws parseErrorBody loadRestJsonErrorCode
                (CommandOutput ChatResponseStream.t) output) as [e1 ->].
    destruct (de_CommandError_throws parseErrorBody loadRestJsonErrorCode
                (CommandOutput GenerateCodeFromCommandsResponseStream.t) output)
      as [e2 ->].
    repeat split; try discriminate; intros [r Hr]; discriminate Hr.
  - split; [split; [reflexivity | eauto]|].
    split; [split; [reflexivity | eauto]|].
    split; intros r Hr; injection Hr as <-; split; reflexivity.
Qed.

(** X3.  When the body of a response with status code at least 300 cannot be
    parsed, both commands fail with the parser's rejection: no error code is
    extracted and neither a named nor the default exception is built. *)
Theorem unparsable_error_body_rejects (output : Output Body) (n : Z) (e : Thrown) :
  statusCode output = Some n -> 300 <= n ->
  parseErrorBody (body output) = Throw e ->
  SendMessageCommand output = Throw e
  /\ GenerateCodeFromCommandsCommand output = Throw e.
Proof.
  intros Hs Hn Hp.
  destruct (status_routes parseBody parseErrorBody loadRestJsonErrorCode
              __expectString frames output n Hs Hn) as [-> ->].
  unfold de_CommandError. rewrite Hp. split; reflexivity.
Qed.

End CommandResults.

Lemma command_returns_below_300_witness :
  exists r,
    de_SendMessageCommand Sample.parse Sample.parse Sample.errorCode
      Sample.expectString Sample.frames
      (mkOutput (Some 200) ∅ Sample.stream_body) = Return r
    /\ snd (responseStream r) = ErrorEvent.
Proof.
  destruct (command_returns_below_300 Sample.parse Sample.parse Sample.errorCode
              Sample.expectString Sample.frames
              (mkOutput (Some 200) ∅ Sample.stream_body)) as (Hiff & _ & Hout & _).
  assert (Hlt : forall n, Some 200 = Some n -> n < 300)
    by (intros n Hn; injection Hn as <-; lia).
  destruct (proj2 Hiff Hlt) as [r Hr].
  exists r. split; [exact Hr|].
  destruct (Hout r Hr) as [_ ->]. reflexivity.
Defined.

Lemma unparsable_error_body_rejects_witness :
  de_SendMessageCommand Sample.parse Sample.parse Sample.errorCode
    Sample.expectString Sample.frames (mkOutput (Some 502) ∅ [Byte.x3c])
  = Throw (ParseError [Byte.x3c]).
Proof.
  exact (proj1 (unparsable_error_body_rejects Sample.parse Sample.parse
                  Sample.errorCode Sample.expectString Sample.frames
                  (mkOutput (Some 502) ∅ [Byte.x3c]) 502 (ParseError [Byte.x3c])
                  eq_refl ltac:(lia) eq_refl)).
Defined.

(** ** The options of an exception *)

(** X4.  The options that a named exception is constructed with hold every
    member of the deserialized body under its name, [message] included, and
    besides them only [$metadata], which is the metadata of the response
    when the body has no member of that name. *)
Theorem exception_options (k : ExceptionCtor) (parsedOutput : Output JVal)
    (key : string) :
  NoDup (own_entries (_json (body parsedOutput))).*1 ->
  assoc key (ex_opts (exceptionRes k parsedOutput))
  = match assoc key (own_entries (_json (body parsedOutput))) with
    | Some v => Some v
    | None =>
        if String.eqb "$metadata" key
        then Some (metadata_val (deserializeMetadata parsedOutput))
        else None
    end.
Proof.
  intros Hnd. destruct k; simpl; now rewrite (assoc_obj_spread _ _ _ Hnd).
Qed.

Lemma exception_options_witness :
  assoc "message"
    (ex_opts (exceptionRes InternalServerException
                (mkOutput (Some 500) {[ "x-amzn-requestid" := "abc-123" ]}
                   (JObj [("__type", JStr "InternalServerException");
                          ("message", JStr "boom")]))))
  = Some (JStr "boom").
Proof.
  apply (exception_options InternalServerException
           (mkOutput (Some 500) {[ "x-amzn-requestid" := "abc-123" ]}
              (JObj [("__type", JStr "InternalServerException");
                     ("message", JStr "boom")])) "message").
  apply NoDup_ListNoDup. repeat constructor; simpl; intuition discriminate.
Defined.

(** ** The stream callbacks *)

Lemma if_member_frame (A : Type) (eventName key : string) (m : Message)
    (f : Message -> Result A) (rest : Result A) :
  if_member {[ eventName := m ]} key f rest
  = if decide (eventName = key) then f m else rest.
Proof. unfold if_member. rewrite lookup_singleton. now case_decide. Qed.

Section Callbacks.

Variable parseBody : Body -> Result JVal.
Variable __expectString : JVal -> Result JVal.

Local Abbreviation ChatDeserializer :=
  (de_ChatResponseStream_deserializer parseBody __expectString).
Local Abbreviation GenerateCodeDeserializer :=
  (de_GenerateCodeFromCommandsResponseStream_deserializer parseBody).

(** Splits on whether the frame has the name tested by the first [if]. *)
Ltac first_member H :=
  match type of H with
  | (if decide (?a = ?b) then _ else _) = _ =>
      destruct (decide (a = b)) as [->|?]
  end.

Ltac returned H :=
  try match type of H with
      | context [bind ?r _] => destruct r
      end;
  simpl in H; try discriminate H; injection H as <-.

Ltac named_after_frame H := returned H; reflexivity.

(** X5.  The alternative that a stream callback returns for a frame is the
    one named after the frame when the name is in the operation's decode
    table, and the unrecognized one otherwise. *)
Theorem callback_alternative_named_after_frame (output : Body) (eventName : string)
    (m : Message) :
  (forall item, ChatDeserializer output {[ eventName := m ]} = Return item ->
     ChatResponseStream_tag item
     = if bool_decide (eventName ∈ ChatResponseStream_names)
       then eventName else "$unknown")
  /\ (forall item, GenerateCodeDeserializer output {[ eventName := m ]} = Return item ->
        GenerateCodeFromCommandsResponseStream_tag item
        = if bool_decide (eventName ∈ GenerateCodeFromCommandsResponseStream_names)
          then eventName else "$unknown").
Proof.
  split; intros item H.
  - unfold de_ChatResponseStream_deserializer in H.
    rewrite !if_member_frame in H.
    repeat (first_member H; [named_after_frame H|]).
    returned H. simpl.
    rewrite bool_decide_eq_false_2; [reflexivity|].
    intros Hin. apply list_elem_of_In in Hin. simpl in Hin. intuition congruence.
  - unfold de_GenerateCodeFromCommandsResponseStream_deserializer in H.
    rewrite !if_member_frame in H.
    repeat (first_member H; [named_after_frame H|]).
    returned H. simpl.
    rewrite bool_decide_eq_false_2; [reflexivity|].
    intros Hin. apply list_elem_of_In in Hin. simpl in Hin. intuition congruence.
Qed.

End Callbacks.

Lemma callback_alternative_named_after_frame_witness :
  ChatResponseStream_tag
    (ChatResponseStream.assistantResponseEvent (JObj [("content", JStr "hello")]))
  = "assistantResponseEvent".
Proof.
  exact (proj1 (callback_alternative_named_after_frame Sample.parse
                  Sample.expectString Sample.stream_body "assistantResponseEvent"
                  (Sample.message Sample.payload_text))
               (ChatResponseStream.assistantResponseEvent
                  (JObj [("content", JStr "hello")])) eq_refl).
Defined.

Section CallbacksOfTwoOperations.

Variable parseBody : Body -> Result JVal.
Variable __expectString : JVal -> Result JVal.

Local Abbreviation ChatDeserializer :=
  (de_ChatResponseStream_deserializer parseBody __expectString).
Local Abbreviation GenerateCodeDeserializer :=
  (de_GenerateCodeFromCommandsResponseStream_deserializer parseBody).

(** X6.  The two operations share one event name, [codeEvent], which both
    decode alike; a frame of any other name is unrecognized by at least one
    of them.  In particular the error events of one operation ([error];
    [Error], [QuotaLevelExceededError], [ValidationError]) are unrecognized
    events of the other. *)
Theorem operations_share_codeEvent_only (output : Body) (eventName : string)
    (m : Message) :
  (eventName = "codeEvent" ->
   ChatDeserializer output {[ eventName := m ]}
   = (let* r := de_CodeEvent_event parseBody m in
      Return (ChatResponseStream.codeEvent r))
   /\ GenerateCodeDeserializer output {[ eventName := m ]}
      = (let* r := de_CodeEvent_event parseBody m in
         Return (GenerateCodeFromCommandsResponseStream.codeEvent r)))
  /\ (eventName <> "codeEvent" ->
      ChatDeserializer output {[ eventName := m ]}
      = Return (ChatResponseStream.unknown output)
      \/ GenerateCodeDeserializer output {[ eventName := m ]}
         = Return (GenerateCodeFromCommandsResponseStream.unknown output)).
Proof.
  split.
  - intros ->. split.
    + unfold de_ChatResponseStream_deserializer. rewrite !if_member_frame.
      reflexivity.
    + unfold de_GenerateCodeFromCommandsResponseStream_deserializer.
      rewrite !if_member_frame. reflexivity.
  - intros Hne.
    destruct (decide (eventName ∈ GenerateCodeFromCommandsResponseStream_names))
      as [Hin|Hout].
    + left. apply ChatResponseStream_unknown.
      intros Hchat. apply list_elem_of_In in Hin, Hchat. simpl in Hin, Hchat.
      destruct Hin as [<-|[<-|[<-|[<-|[]]]]]; intuition congruence.
    + right. now apply GenerateCodeFromCommandsResponseStream_unknown.
Qed.

(** X7.  The exception of an in-stream error event is built from the event
    message alone: it is decorated with the parsed payload, and its
    [$metadata] is read from the status code and headers of the message
    (unless the payload has a member of that name); the response that
    carries the stream does not enter. *)
Theorem in_stream_exception_of_message (output : Body) (m : Message) (b : JVal) :
  parseBody (body m) = Return b ->
  assoc "$metadata" (own_entries (_json b)) = None ->
  exists e,
    ChatDeserializer output {[ "error" := m ]} = Return (ChatResponseStream.error e)
    /\ ex_additions e = b
    /\ carried_metadata e = Some (metadata_val (deserializeMetadata m)).
Proof.
  intros Hp Habs. exists (de_InternalServerExceptionRes (with_body m b)).
  rewrite ChatResponseStream_error.
  unfold de_InternalServerException_event. rewrite Hp. simpl.
  split; [reflexivity|]. split; [reflexivity|].
  exact (exceptionRes_metadata InternalServerException (with_body m b) Habs).
Qed.

End CallbacksOfTwoOperations.

Lemma operations_share_codeEvent_only_witness :
  de_ChatResponseStream_deserializer Sample.parse Sample.expectString
    Sample.stream_body {[ "Error" := Sample.message Sample.payload_throttled ]}
  = Return (ChatResponseStream.unknown Sample.stream_body)
  \/ de_GenerateCodeFromCommandsResponseStream_deserializer Sample.parse
       Sample.stream_body {[ "Error" := Sample.message Sample.payload_throttled ]}
     = Return (GenerateCodeFromCommandsResponseStream.unknown Sample.stream_body).
Proof.
  apply (operations_share_codeEvent_only Sample.parse Sample.expectString
           Sample.stream_body "Error" (Sample.message Sample.payload_throttled)).
  discriminate.
Defined.

Lemma in_stream_exception_of_message_witness :
  exists e,
    de_ChatResponseStream_deserializer Sample.parse Sample.expectString
      Sample.stream_body {[ "error" := Sample.message Sample.payload_throttled ]}
    = Return (ChatResponseStream.error e)
    /\ ex_additions e
       = JObj [("__type", JStr "ThrottlingException"); ("message", JStr "slow down")]
    /\ carried_metadata e = Some (JObj []).
Proof.
  exact (in_stream_exception_of_message Sample.parse Sample.expectString
           Sample.stream_body (Sample.message Sample.payload_throttled) _
           eq_refl eq_refl).
Defined.

(** ** Arrays *)

Lemma mapR_Return (A B : Type) (f : A -> Result B) (xs : list A) (ys : list B) :
  mapR f xs = Return ys <-> Forall2 (fun x y => f x = Return y) xs ys.
Proof.
  revert ys. induction xs as [|x xs IH]; intros ys; simpl.
  - split.
    + intros H. injection H as <-. constructor.
    + intros H. inversion H. reflexivity.
  - split.
    + intros H. destruct (f x) as [y|e] eqn:Hx; simpl in H; [|discriminate].
      destruct (mapR f xs) as [ys'|e]; simpl in H; [|discriminate].
      injection H as <-. constructor; [exact Hx | now apply IH].
    + intros H. inversion H as [|? y ? ys' Hx Hrest]; subst.
      rewrite Hx. simpl. apply IH in Hrest. now rewrite Hrest.
Qed.

Lemma mapR_Throw (A B : Type) (f : A -> Result B) (xs : list A) (e : Thrown) :
  mapR f xs = Throw e
  <-> exists pre x post ys,
        xs = (pre ++ x :: post)%list
        /\ Forall2 (fun x y => f x = Return y) pre ys
        /\ f x = Throw e.
Proof.
  induction xs as [|x xs IH]; simpl.
  - split; [discriminate|].
    intros (pre & x & post & ys & Hxs & _). now destruct pre.
  - split.
    + intros H. destruct (f x) as [y|e'] eqn:Hx; simpl in H.
      * destruct (mapR f xs) as [ys'|e'] eqn:Hrest; simpl in H; [discriminate|].
        injection H as ->.
        destruct (proj1 IH eq_refl) as (pre & x' & post & ys & -> & Hpre & Hx').
        exists (x :: pre), x', post, (y :: ys).
        split; [reflexivity|]. split; [now constructor | exact Hx'].
      * injection H as ->. exists [], x, xs, []. repeat split; [constructor | exact Hx].
    + intros (pre & x' & post & ys & Hxs & Hpre & Hx').
      destruct pre as [|p pre]; simpl in Hxs; injection Hxs as -> ->.
      * now rewrite Hx'.
      * inversion Hpre as [|? y ? ys' Hp Hpre']; subst.
        rewrite Hp. simpl.
        assert (Hrest : mapR f (pre ++ x' :: post)%list = Throw e).
        { apply IH. exists pre, x', post, ys'. auto. }
        now rewrite Hrest.
Qed.

Lemma filter_map_entries_encodes (f : JVal -> Result JVal) :
  encodes_entries f (filter_map_entries f).
Proof.
  intros xs. unfold filter_map_entries. split.
  - intros w. split.
    + intros H. destruct (mapR f (List.filter nonNull xs)) as [ys|e] eqn:Hm;
        simpl in H; [|discriminate].
      injection H as <-. exists ys. split; [reflexivity|]. now apply mapR_Return.
    + intros (ys & -> & Hys). apply mapR_Return in Hys. now rewrite Hys.
  - intros e. split.
    + intros H. destruct (mapR f (List.filter nonNull xs)) as [ys|e'] eqn:Hm;
        simpl in H; [discriminate|].
      injection H as ->. now apply mapR_Throw.
    + intros H. apply mapR_Throw in H. now rewrite H.
Qed.

(** X8.  The array serializers and the entry-list deserializer work entry
    by entry: [null] entries are skipped, the remaining entries are encoded
    in order by the element function, so that the result has one entry per
    non-null entry of the input, and the call fails exactly when an element
    fails, with the failure of the first such element. *)
Theorem arrays_entry_by_entry (ctx : SerdeContext)
    (__expectString : JVal -> Result JVal) :
  encodes_entries (se_ChatMessage ctx) (se_ChatHistory ctx)
  /\ encodes_entries (se_ImageBlock ctx) (se_ImageBlocks ctx)
  /\ encodes_entries se_ToolUse se_ToolUses
  /\ encodes_entries se_Tool se_Tools
  /\ encodes_entries se_ToolResult se_ToolResults
  /\ encodes_entries se_ToolResultContentBlock se_ToolResultContent
  /\ encodes_entries (de_InteractionComponentEntry __expectString)
                     (de_InteractionComponentEntryList __expectString).
Proof.
  repeat split; try apply filter_map_entries_encodes.
  all: destruct (filter_map_entries_encodes
                   (de_InteractionComponentEntry __expectString) xs) as [Hr Ht].
  all: unfold de_InteractionComponentEntryList; simpl; first [apply Hr | apply Ht].
Qed.

Lemma arrays_entry_by_entry_witness :
  se_ToolUses (JArr [JNull; Sample.toolUse; JNull])
  = Return (JArr [JObj [("input", JObj [("path", JStr "/tmp"); ("depth", JNull)]);
                        ("name", JStr "fsRead")]]).
Proof.
  destruct (arrays_entry_by_entry Sample.context Sample.expectString)
    as (_ & _ & Huses & _).
  apply (proj1 (Huses [JNull; Sample.toolUse; JNull])).
  eexists. split; [reflexivity|]. repeat constructor.
Defined.

(** ** Members of a serialized request *)

(** X9.  The wire object of a [SendMessage] request has no member besides
    [conversationState], [dryRun], [profileArn] and [source].  The last three
    are copied unchanged when present and left out when absent or [null];
    [conversationState] is the encoding of the input's.  The serializer
    fails exactly when the conversation state is present and its own
    serializer fails, and then in the same way. *)
Theorem SendMessageRequest_members (ctx : SerdeContext) (input : JVal) :
  (forall w, se_SendMessageRequest ctx input = Return w ->
     (forall k, k ∈ ["dryRun"; "profileArn"; "source"] ->
                prop k w = present_member k input)
     /\ (forall k, k ∉ ["conversationState"; "dryRun"; "profileArn"; "source"] ->
                   prop k w = None)
     /\ match present_member "conversationState" input with
        | Some state => exists y, se_ConversationState ctx state = Return y
                                  /\ prop "conversationState" w = Some y
        | None => prop "conversationState" w = None
        end)
  /\ (forall e, se_SendMessageRequest ctx input = Throw e
                <-> exists state,
                      present_member "conversationState" input = Some state
                      /\ se_ConversationState ctx state = Throw e).
Proof.
  split.
  - intros w Hw.
    assert (Hnd : NoDup ["conversationState"; "dryRun"; "profileArn"; "source"]).
    { apply NoDup_ListNoDup. repeat constructor; simpl; intuition discriminate. }
    split; [|split].
    + intros k Hk.
      assert (Hin : (k, Pass) ∈ [ ("conversationState", ValueFn (se_ConversationState ctx));
                                  ("dryRun", Pass); ("profileArn", Pass);
                                  ("source", Pass) ]).
      { apply list_elem_of_In in Hk. apply list_elem_of_In. simpl in *.
        intuition (subst; auto). }
      pose proof (take_field input w _ k Pass Hw Hnd Hin) as Hf.
      destruct (present_member k input) as [v|]; [|exact Hf].
      destruct Hf as (y & Hy & Hp). simpl in Hy. congruence.
    + intros k Hk. exact (take_outside input w _ k Hw Hk).
    + exact (take_field input w _ "conversationState" _ Hw Hnd
               (list_elem_of_here _ _)).
  - intros e. unfold se_SendMessageRequest, take, present_member, nonNullish.
    simpl. unfold applyInstruction.
    destruct (prop "conversationState" input) as [state|];
      [destruct (nonNull state) eqn:Hn|]; simpl.
    + destruct (se_ConversationState ctx state) as [y|e'] eqn:Hs; simpl.
      * split.
        -- destruct (prop "dryRun" input) as [a|]; [destruct (nonNull a)|];
             (destruct (prop "profileArn" input) as [b|]; [destruct (nonNull b)|]);
             (destruct (prop "source" input) as [c|]; [destruct (nonNull c)|]);
             discriminate.
        -- intros (state' & Heq & He). injection Heq as <-. congruence.
      * split.
        -- intros H. injection H as ->. now exists state.
        -- intros (state' & Heq & He). injection Heq as <-. congruence.
    + split.
      * destruct (prop "dryRun" input) as [a|]; [destruct (nonNull a)|];
          (destruct (prop "profileArn" input) as [b|]; [destruct (nonNull b)|]);
          (destruct (prop "source" input) as [c|]; [destruct (nonNull c)|]);
          discriminate.
      * intros (state' & Heq & _). discriminate Heq.
    + split.
      * destruct (prop "dryRun" input) as [a|]; [destruct (nonNull a)|];
          (destruct (prop "profileArn" input) as [b|]; [destruct (nonNull b)|]);
          (destruct (prop "source" input) as [c|]; [destruct (nonNull c)|]);
          discriminate.
      * intros (state' & Heq & _). discriminate Heq.
Qed.

Lemma SendMessageRequest_members_witness :
  exists w,
    se_SendMessageRequest Sample.context
      (JObj [("profileArn", JStr "arn:aws:codewhisperer:p"); ("dryRun", JNull);
             ("traceId", JStr "t-1")]) = Return w
    /\ prop "profileArn" w = Some (JStr "arn:aws:codewhisperer:p")
    /\ prop "dryRun" w = None
    /\ prop "traceId" w = None.
Proof.
  eexists. split; [reflexivity|].
  destruct (SendMessageRequest_members Sample.context
              (JObj [("profileArn", JStr "arn:aws:codewhisperer:p");
                     ("dryRun", JNull); ("traceId", JStr "t-1")])) as [Hw _].
  destruct (Hw _ eq_refl) as (Hcopy & Hout & _).
  split; [|split].
  - apply (Hcopy "profileArn"). apply list_elem_of_In. simpl. tauto.
  - apply (Hcopy "dryRun"). apply list_elem_of_In. simpl. tauto.
  - apply (Hout "traceId"). intros Hin. apply list_elem_of_In in Hin.
    simpl in Hin. intuition discriminate.
Defined.

(** ** Interaction components *)

(** X10.  In an interaction components event, an absent or [null] entry
    list is left out of the decoded event; a list that is [false], [0] or
    the empty string is decoded as the empty list; an array is decoded entry
    by entry. *)
Theorem InteractionComponentsEvent_entries (__expectString : JVal -> Result JVal)
    (output : JVal) :
  (present_member "interactionComponentEntries" output = None ->
   de_InteractionComponentsEvent __expectString output = Return (JObj []))
  /\ (forall v, prop "interactionComponentEntries" output = Some v ->
        v = JBool false \/ v = JNum 0 \/ v = JStr "" ->
        de_InteractionComponentsEvent __expectString output
        = Return (JObj [("interactionComponentEntries", JArr [])]))
  /\ (forall xs, prop "interactionComponentEntries" output = Some (JArr xs) ->
        de_InteractionComponentsEvent __expectString output
        = (let* ys := mapR (de_InteractionComponentEntry __expectString)
                           (List.filter nonNull xs) in
           Return (JObj [("interactionComponentEntries", JArr ys)]))).
Proof.
  unfold de_InteractionComponentsEvent, take, present_member, nonNullish.
  simpl. unfold applyInstruction. split; [|split].
  - destruct (prop "interactionComponentEntries" output) as [v|];
      [destruct (nonNull v)|]; [discriminate|reflexivity|reflexivity].
  - intros v -> [->|[->| ->]]; reflexivity.
  - intros xs ->. simpl. unfold de_InteractionComponentEntryList. simpl.
    now destruct (mapR _ _).
Qed.

Lemma InteractionComponentsEvent_entries_witness :
  de_InteractionComponentsEvent Sample.expectString
    (JObj [("interactionComponentEntries", JStr "")])
  = Return (JObj [("interactionComponentEntries", JArr [])]).
Proof.
  destruct (InteractionComponentsEvent_entries Sample.expectString
              (JObj [("interactionComponentEntries", JStr "")])) as (_ & Hfalsy & _).
  apply (Hfalsy (JStr "") eq_refl). right. right. reflexivity.
Defined.

(** * Properties of the web page reading tool *)

Module WebScrapeFacts.
Import WebScrape.

(** ** Cleaning a text *)

Lemma collapsed_weaken (s : JsStr) : collapsed true s = true -> collapsed false s = true.
Proof.
  destruct s as [|c rest]; simpl; [reflexivity|].
  destruct (is_space c); [|auto].
  rewrite andb_false_r. discriminate.
Qed.

Lemma replace_space_runs_collapsed (b : bool) (s : JsStr) :
  collapsed b (replace_space_runs b s) = true.
Proof.
  revert b. induction s as [|c rest IH]; intros b; simpl; [reflexivity|].
  destruct (is_space c) eqn:Hc.
  - destruct b; [apply IH|]. simpl. apply IH.
  - simpl. rewrite Hc. apply IH.
Qed.

Lemma trimStart_collapsed (b : bool) (s : JsStr) :
  collapsed b s = true -> collapsed false (trimStart s) = true.
Proof.
  revert b. induction s as [|c rest IH]; intros b H; simpl in *; [reflexivity|].
  destruct (is_space c) eqn:Hc.
  - apply andb_true_iff in H as [_ H]. exact (IH true H).
  - simpl. now rewrite Hc.
Qed.

Lemma trimEnd_collapsed (b : bool) (s : JsStr) :
  collapsed b s = true -> collapsed b (trimEnd s) = true.
Proof.
  revert b. induction s as [|c rest IH]; intros b H; simpl in *; [reflexivity|].
  destruct (is_space c) eqn:Hc.
  - apply andb_true_iff in H as [H1 H2]. specialize (IH true H2).
    destruct (trimEnd rest) as [|d kept]; [reflexivity|].
    simpl in *. now rewrite Hc, H1.
  - specialize (IH false H).
    destruct (trimEnd rest) as [|d kept]; simpl in *; now rewrite Hc.
Qed.

Lemma trimStart_idem (s : JsStr) : trimStart (trimStart s) = trimStart s.
Proof.
  induction s as [|c rest IH]; simpl; [reflexivity|].
  destruct (is_space c) eqn:Hc; [exact IH|]. simpl. now rewrite Hc.
Qed.

Lemma trimEnd_idem (s : JsStr) : trimEnd (trimEnd s) = trimEnd s.
Proof.
  induction s as [|c rest IH]; simpl; [reflexivity|].
  destruct (trimEnd rest) as [|d kept] eqn:Hr.
  - destruct (is_space c) eqn:Hc; simpl; [reflexivity|]. now rewrite Hc.
  - change (trimEnd (c :: d :: kept)) with
      (match trimEnd (d :: kept) with
       | [] => if is_space c then [] else [c]
       | k => c :: k
       end).
    now rewrite IH.
Qed.

(** Trimming the end keeps a first code unit that is not white space. *)
Lemma trimStart_trimEnd (s : JsStr) : trimStart s = s -> trimStart (trimEnd s) = trimEnd s.
Proof.
  destruct s as [|c rest]; [reflexivity|]. simpl.
  destruct (is_space c) eqn:Hc.
  - intros H. exfalso.
    assert (Hlen : (List.length (trimStart rest) <= List.length rest)%nat).
    { clear. induction rest as [|d r IH]; simpl; [lia|].
      destruct (is_space d); simpl; lia. }
    rewrite H in Hlen. simpl in Hlen. lia.
  - intros _. destruct (trimEnd rest); simpl; now rewrite Hc.
Qed.

Lemma collapsed_fixed (b : bool) (s : JsStr) :
  collapsed b s = true -> replace_space_runs b s = s.
Proof.
  revert b. induction s as [|c rest IH]; intros b H; simpl in *; [reflexivity|].
  destruct (is_space c) eqn:Hc.
  - apply andb_true_iff in H as [H1 H2]. apply andb_true_iff in H1 as [H0 Hb].
    apply N.eqb_eq in H0. subst c. destruct b; [discriminate|].
    now rewrite (IH true H2).
  - now rewrite (IH false H).
Qed.

Lemma cleanText_clean (text : JsStr) : clean (cleanText text).
Proof.
  unfold clean, cleanText, trim. split; [|split].
  - apply trimEnd_collapsed. eapply trimStart_collapsed.
    apply replace_space_runs_collapsed.
  - apply trimStart_trimEnd. apply trimStart_idem.
  - apply trimEnd_idem.
Qed.

Lemma clean_fixed (s : JsStr) : clean s -> cleanText s = s.
Proof.
  intros (Hc & Hs & He). unfold cleanText, trim.
  now rewrite (collapsed_fixed false s Hc), Hs, He.
Qed.

(** X11.  [cleanText] leaves no white space at either end of a text and
    inside only single U+0020 spaces, none next to another; a text of that
    form is left as it is, so that cleaning twice is cleaning once. *)
Theorem cleanText_normal_form (text : JsStr) :
  clean (cleanText text)
  /\ (clean text -> cleanText text = text)
  /\ cleanText (cleanText text) = cleanText text.
Proof.
  split; [apply cleanText_clean|]. split; [apply clean_fixed|].
  apply clean_fixed, cleanText_clean.
Qed.

Lemma cleanText_normal_form_witness :
  cleanText (units "a b") = units "a b".
Proof.
  exact (proj1 (proj2 (cleanText_normal_form (units "a b")))
               (conj eq_refl (conj eq_refl eq_refl))).
Defined.

Lemma is_space_32 : is_space 32 = true.
Proof. reflexivity. Qed.

Lemma replace_space_runs_keeps (b : bool) (s : JsStr) :
  List.filter not_space (replace_space_runs b s) = List.filter not_space s.
Proof.
  revert b. induction s as [|c rest IH]; intros b; simpl; [reflexivity|].
  unfold not_space at 2. destruct (is_space c) eqn:Hc; simpl.
  - destruct b; [apply IH|]. simpl. apply IH.
  - unfold not_space at 1. rewrite Hc. simpl. now rewrite IH.
Qed.

Lemma trimStart_keeps (s : JsStr) :
  List.filter not_space (trimStart s) = List.filter not_space s.
Proof.
  induction s as [|c rest IH]; simpl; [reflexivity|].
  unfold not_space at 2. destruct (is_space c) eqn:Hc; simpl; [exact IH|].
  unfold not_space at 1. now rewrite Hc.
Qed.

Lemma trimEnd_keeps (s : JsStr) :
  List.filter not_space (trimEnd s) = List.filter not_space s.
Proof.
  induction s as [|c rest IH]; simpl; [reflexivity|].
  rewrite <- IH. destruct (trimEnd rest) as [|d kept]; [|reflexivity].
  unfold not_space. destruct (is_space c) eqn:Hc; simpl; now rewrite ?Hc.
Qed.

Lemma cleanText_keeps (text : JsStr) :
  List.filter not_space (cleanText text) = List.filter not_space text.
Proof.
  unfold cleanText, trim.
  now rewrite trimEnd_keeps, trimStart_keeps, replace_space_runs_keeps.
Qed.

Lemma no_text_all_space (s : JsStr) :
  List.filter not_space s = [] <-> Forall (fun c => is_space c = true) s.
Proof.
  induction s as [|c rest IH]; simpl.
  - split; [constructor | reflexivity].
  - unfold not_space at 1. destruct (is_space c) eqn:Hc; simpl.
    + rewrite IH. split; [now constructor | now inversion 1].
    + split; [discriminate|]. inversion 1; congruence.
Qed.

Lemma clean_all_space (s : JsStr) :
  clean s -> Forall (fun c => is_space c = true) s -> s = [].
Proof.
  intros (_ & Hs & _) Hall. destruct s as [|c rest]; [reflexivity|].
  inversion Hall as [|? ? Hc Hrest]; subst. simpl in Hs. rewrite Hc in Hs.
  exfalso.
  assert (Hlen : (List.length (trimStart rest) <= List.length rest)%nat).
  { clear. induction rest as [|d r IH]; simpl; [lia|].
    destruct (is_space d); simpl; lia. }
  rewrite Hs in Hlen. simpl in Hlen. lia.
Qed.

Lemma replace_space_runs_length (b : bool) (s : JsStr) :
  (List.length (replace_space_runs b s) <= List.length s)%nat.
Proof.
  revert b. induction s as [|c rest IH]; intros b; simpl; [lia|].
  pose proof (IH true). pose proof (IH false).
  destruct (is_space c); [destruct b|]; simpl; lia.
Qed.

Lemma trimStart_length (s : JsStr) :
  (List.length (trimStart s) <= List.length s)%nat.
Proof.
  induction s as [|c rest IH]; simpl; [lia|]. destruct (is_space c); simpl; lia.
Qed.

Lemma trimEnd_length (s : JsStr) :
  (List.length (trimEnd s) <= List.length s)%nat.
Proof.
  induction s as [|c rest IH]; simpl; [lia|].
  destruct (trimEnd rest); [destruct (is_space c)|]; simpl in *; lia.
Qed.

(** X12.  [cleanText] keeps the code units that are not white space, all of
    them and in their order; it yields the empty text exactly for a text of
    white space only; and it never lengthens a text. *)
Theorem cleanText_keeps_text (text : JsStr) :
  List.filter not_space (cleanText text) = List.filter not_space text
  /\ (cleanText text = [] <-> Forall (fun c => is_space c = true) text)
  /\ (List.length (cleanText text) <= List.length text)%nat.
Proof.
  split; [apply cleanText_keeps|]. split.
  - split.
    + intros H. apply no_text_all_space. rewrite <- cleanText_keeps. now rewrite H.
    + intros H. apply clean_all_space; [apply cleanText_clean|].
      apply no_text_all_space. rewrite cleanText_keeps.
      now apply no_text_all_space.
  - unfold cleanText, trim.
    pose proof (trimEnd_length (trimStart (replace_space_runs false text))).
    pose proof (trimStart_length (replace_space_runs false text)).
    pose proof (replace_space_runs_length false text). lia.
Qed.

Example cleanText_sample :
  cleanText (units "  Hello" ++ [9; 10; 160] ++ units "world ")%list%N
  = units "Hello world".
Proof. reflexivity. Qed.

(** ** The page function *)

Lemma trim_trim (v : JsStr) : trim (trim v) = trim v.
Proof.
  unfold trim. rewrite (trimStart_trimEnd (trimStart v) (trimStart_idem v)).
  apply trimEnd_idem.
Qed.

Lemma clean_trim (s : JsStr) : clean s -> trim s = s.
Proof. intros (_ & Hs & He). unfold trim. now rewrite Hs, He. Qed.

Lemma trimStart_app (p x : JsStr) :
  p <> [] -> trimStart p = p -> trimStart (p ++ x)%list = (p ++ x)%list.
Proof.
  destruct p as [|c rest]; [congruence|]. intros _ H. simpl in *.
  destruct (is_space c); [|reflexivity].
  exfalso. pose proof (trimStart_length rest) as Hlen.
  rewrite H in Hlen. simpl in Hlen. lia.
Qed.

Lemma trimEnd_app (x y : JsStr) :
  y <> [] -> trimEnd y = y -> trimEnd (x ++ y)%list = (x ++ y)%list.
Proof.
  intros Hy He. induction x as [|c rest IH]; simpl; [exact He|].
  rewrite IH. destruct (rest ++ y)%list eqn:E; [|reflexivity].
  apply app_eq_nil in E as [_ ->]. congruence.
Qed.

Lemma join_parts (sep : JsStr) (parts : list JsStr) :
  parts <> [] -> Forall is_part parts -> is_part (join sep parts).
Proof.
  induction parts as [|p rest IH]; [congruence|]. intros _ Hall.
  inversion Hall as [|? ? Hp Hrest]; subst.
  destruct rest as [|q rest]; [exact Hp|].
  assert (Hj : is_part (join sep (q :: rest))) by (apply IH; [discriminate|exact Hrest]).
  destruct Hp as (Hne & Hs & He). destruct Hj as (Hjne & Hjs & Hje).
  change (join sep (p :: q :: rest)) with (p ++ sep ++ join sep (q :: rest))%list.
  split; [|split].
  - destruct p; [congruence | discriminate].
  - now apply trimStart_app.
  - rewrite app_assoc. now apply trimEnd_app.
Qed.

Lemma clean_part (s : JsStr) : clean s -> truthy s = true -> is_part s.
Proof.
  intros (_ & Hs & He) Ht. split; [|split]; try assumption.
  destruct s; [discriminate | discriminate].
Qed.

Lemma is_part_trim (p : JsStr) : is_part p -> p <> [] /\ trim p = p.
Proof. intros (Hne & Hs & He). split; [exact Hne|]. unfold trim. now rewrite Hs, He. Qed.

Section PageFunctionFacts.

Variable Element : Type.
Variable textContent : Element -> option JsStr.
Variable contentText : Element -> option JsStr.
Variable querySelectorAll : Element -> list Element.
Variable className : Element -> JsStr.
Variable toLowerCase : JsStr -> JsStr.
Variable querySelector : JsStr -> Outcome (option Element).
Variable paragraphsAndHeaders : list Element.
Variable divs : list Element.
Variable bodyTextContent : Outcome (option JsStr).

Local Abbreviation pageContent :=
  (mainContentOfPage Element textContent contentText querySelectorAll className
     toLowerCase querySelector paragraphsAndHeaders divs bodyTextContent).

Lemma contentParts_parts (elements : list Element) :
  Forall is_part (contentParts Element contentText elements).
Proof.
  induction elements as [|el rest IH]; simpl; [constructor|].
  destruct (truthy (cleanText _)) eqn:Ht; [|exact IH].
  constructor; [|exact IH]. apply clean_part; [apply cleanText_clean | exact Ht].
Qed.

Lemma joinedParts_part (elements : list Element) (content : JsStr) :
  joinedParts Element contentText elements = Some content -> is_part content.
Proof.
  unfold joinedParts. destruct elements as [|el rest]; [discriminate|].
  pose proof (contentParts_parts (el :: rest)) as Hall.
  destruct (contentParts Element contentText (el :: rest)) as [|p parts];
    [discriminate|].
  intros H. injection H as <-.
  exact (join_parts [10; 10]%N (p :: parts) ltac:(discriminate) Hall).
Qed.

Lemma trySelectors_part (selectors : list JsStr) (content : JsStr) :
  trySelectors Element textContent contentText querySelectorAll querySelector
    selectors = Some content ->
  is_part content.
Proof.
  induction selectors as [|selector rest IH]; simpl; [discriminate|].
  unfold trySelector.
  destruct (querySelector selector) as [[mainElement|]|e]; try exact IH.
  destruct (truthy (trimmed (textContent mainElement))); [|exact IH].
  destruct (joinedParts Element contentText (querySelectorAll mainElement))
    as [c|] eqn:Hj.
  - intros H. injection H as <-. exact (joinedParts_part _ _ Hj).
  - destruct (truthy (cleanText _)) eqn:Ht; [|exact IH].
    intros H. injection H as <-.
    apply clean_part; [apply cleanText_clean | exact Ht].
Qed.

(** X13.  Whatever the document, the content that the page function of
    [extractMainContent] returns has no white space at either end.  It is
    empty only as the last resort, when the text of the body is missing or
    blank, and the function throws only when reading the text of the body
    throws: a selector whose lookup throws is passed over. *)
Theorem pageContent_trimmed :
  (forall content, pageContent = Ok content ->
     trim content = content
     /\ (content = [] ->
         exists text, bodyTextContent = Ok text /\ trimmed text = []))
  /\ (forall error, pageContent = Fail error -> bodyTextContent = Fail error).
Proof.
  unfold mainContentOfPage.
  destruct (trySelectors _ _ _ _ _ _) as [c|] eqn:H1.
  { apply trySelectors_part, is_part_trim in H1 as [Hne Ht].
    split; [|discriminate]. intros content H. injection H as <-. now split. }
  destruct (joinedParts _ _ paragraphsAndHeaders) as [c|] eqn:H2.
  { apply joinedParts_part, is_part_trim in H2 as [Hne Ht].
    split; [|discriminate]. intros content H. injection H as <-. now split. }
  destruct (joinedParts _ _ (List.filter _ divs)) as [c|] eqn:H3.
  { apply joinedParts_part, is_part_trim in H3 as [Hne Ht].
    split; [|discriminate]. intros content H. injection H as <-. now split. }
  destruct bodyTextContent as [text|e].
  - split; [|discriminate]. intros content H. injection H as <-.
    unfold or_else. destruct (truthy (trimmed text)) eqn:Ht.
    + split.
      * destruct text as [v|]; [apply trim_trim | reflexivity].
      * intros H0. rewrite H0 in Ht. discriminate Ht.
    + split; [reflexivity|]. intros _. exists text. split; [reflexivity|].
      now destruct (trimmed text).
  - split; [discriminate|]. intros error H. now injection H as ->.
Qed.

End PageFunctionFacts.

Lemma pageContent_trimmed_witness :
  trim (units "Hello world") = units "Hello world".
Proof.
  apply (proj1 (pageContent_trimmed unit
                  (fun _ => Some (units " Hello  world "))
                  (fun _ => Some (units " Hello  world "))
                  (fun _ => []) (fun _ => []) (fun s => s)
                  (fun _ => Ok (Some tt)) [] [] (Ok None))
               (units "Hello world") eq_refl).
Defined.

(** ** Reading a page *)

Lemma firstn_or_all (A : Type) (n : nat) (l : list A) :
  (if (n <? List.length l)%nat then firstn n l else l) = firstn n l.
Proof.
  destruct (n <? List.length l)%nat eqn:E; [reflexivity|].
  apply Nat.ltb_ge in E. symmetry. now apply firstn_all2.
Qed.

Lemma description_trimmed (meta : MetaContent) :
  let description :=
    or_else (trimmed_or_empty (metaDescription meta))
            (or_else (trimmed_or_empty (ogDescription meta)) []) in
  trim description = description.
Proof.
  unfold or_else, trimmed_or_empty.
  destruct (metaDescription meta) as [a|], (ogDescription meta) as [b|]; simpl;
    repeat match goal with
           | |- context [truthy ?x] => destruct (truthy x)
           end; first [apply trim_trim | reflexivity].
Qed.

(** Runs [invoke] through the outcomes of its calls, one after the other. *)
Ltac by_outcomes :=
  unfold invoke, readPage, getMetaDescription, getRawDocument,
    extractMainContent, callFailures, pageText;
  unfold finally, tryCatch, andThen, await, ret;
  simpl;
  repeat (match goal with
          | |- context [rawHTML ?t] => destruct (rawHTML t) eqn:?
          | |- context [match ?x with Ok _ => _ | Fail _ => _ end] =>
              destruct x eqn:?
          end; simpl).

Section InvokeFacts.

Variable webScrapeToolResponseSize : nat.
Variable run : Run.
Variable this : Tool.
Variable calls : list Call.

Local Abbreviation result := (invoke webScrapeToolResponseSize run this calls).

(** X14.  [invoke] launches the browser first and, when the launch
    succeeded, closes it exactly once, as its last call, whether the page
    was read or a call failed; when the launch failed it makes no other
    call. *)
Theorem invoke_closes_browser :
  exists trace,
    snd result = (calls ++ Launch :: trace)%list
    /\ match launch run with
       | Ok _ => last trace = Some Close
                 /\ existsb is_Close (removelast trace) = false
       | Fail _ => trace = []
       end.
Proof.
  by_outcomes; rewrite <- ?app_assoc; simpl;
    eexists; (split; [reflexivity|]); try split; reflexivity.
Qed.

(** X15.  [invoke] rejects exactly when the browser was launched and
    closing it fails, and then with the failure of [close], whatever was
    read or caught before; in every other run it returns an output. *)
Theorem invoke_rejects_when_close_fails :
  forall error,
    fst result = Fail error
    <-> (exists u, launch run = Ok u) /\ close run = Fail error.
Proof.
  intros error.
  by_outcomes; split;
    solve [ discriminate
          | intros H; injection H as ->; eauto
          | intros [[u Hu] Hc]; congruence ].
Qed.

(** X16.  When [invoke] returns, its output is the text output, marked
    unsuccessful, of the first call that failed, in the order of the calls:
    ["Error reading web page: "] followed by the message of the failure.
    When no call failed it is the JSON output of the title, of a description
    without white space at its ends, and of the document text cut to its
    first [webScrapeToolResponseSize] code units. *)
Theorem invoke_output :
  forall out,
    fst result = Ok out ->
    match firstFailure (callFailures run this) with
    | Some error => out = failureOutput error
    | None =>
        exists title description page,
          WebScrape.title run = Ok title
          /\ pageText run this = Ok page
          /\ out = JsonOutput title description
                              (firstn webScrapeToolResponseSize page)
          /\ trim description = description
          /\ (List.length (firstn webScrapeToolResponseSize page)
              <= webScrapeToolResponseSize)%nat
    end.
Proof.
  intros out.
  by_outcomes; intros H; try discriminate H; injection H as <-;
    try reflexivity;
    rewrite firstn_or_all;
    (eexists _, _, _; repeat split;
     [ apply description_trimmed | apply firstn_le_length ]).
Qed.

End InvokeFacts.

Lemma invoke_rejects_when_close_fails_witness :
  fst (invoke 5 SamplePage.run_close_fails SamplePage.tool [])
  = Fail (ErrorObject (units "Target closed")).
Proof.
  apply (invoke_rejects_when_close_fails 5 SamplePage.run_close_fails
           SamplePage.tool [] (ErrorObject (units "Target closed"))).
  split; [now exists tt | reflexivity].
Defined.

Lemma invoke_output_witness :
  exists title description page,
    WebScrape.title SamplePage.run = Ok title
    /\ pageText SamplePage.run SamplePage.tool = Ok page
    /\ JsonOutput (units "Greeting") (units "A greeting") (units "Hello")
       = JsonOutput title description (firstn 5 page)
    /\ trim description = description
    /\ (List.length (firstn 5 page) <= 5)%nat.
Proof.
  exact (invoke_output 5 SamplePage.run SamplePage.tool []
           (JsonOutput (units "Greeting") (units "A greeting") (units "Hello"))
           eq_refl).
Defined.

Example invoke_sample_calls :
  snd (invoke 5 SamplePage.run SamplePage.tool [])
  = [ Launch; NewContext; NewPage; SetExtraHTTPHeaders;
      Goto (units "https://example.com"); WaitForLoadState; EvaluateMainContent;
      Title; EvaluateMetaDescription; Close ].
Proof. reflexivity. Qed.

End WebScrapeFacts.
